(** * VoxelLoader: octree-to-mesh generation

    A shallow embedding of [src/VoxelLoader.js] (class [VoxelLoader]: the
    constructor, [setVoxelMaterial], [setVoxelSize], [generateMesh] and the
    file-extension expression of [loadOctree]) together with the few
    operations of the three.js library that the class calls.  The
    promise and callback plumbing of [loadFile] and [loadOctree] is not
    represented.

    Numbers.  JavaScript numbers are embedded as exact rationals [Q]:
    the development reasons about the arithmetic the code writes down, not
    about IEEE-754 rounding, and has no infinities or NaN.  Equalities
    between computed numbers are therefore stated with [==] ([Qeq]).

    Objects.  Geometries and materials are JavaScript objects that the code
    mutates in place and passes around by reference, so they live in an
    explicit heap and are named by references. *)

From Stdlib Require Import QArith Qround Qminmax Lqa ZArith Lia String List.
From Stdlib Require Import Ascii Permutation.
From stdpp Require Import base list.

Local Open Scope Q_scope.

(** ** Numbers *)

(** [Math.round(v)]: the integer nearest to [v], ties towards +infinity. *)
Definition Math_round (v : Q) : Q := inject_Z (Qfloor (v + (1 # 2))).

(** [Math.min(a, b)] and [Math.max(a, b)]. *)
Definition Math_min (a b : Q) : Q := Qmin a b.
Definition Math_max (a b : Q) : Q := Qmax a b.

(** ToNumber on a field that holds [null] or a number: [null] counts as 0. *)
Definition ToNumber (v : option Q) : Q :=
  match v with Some q => q | None => 0 end.

(** ** three.js values *)

Record Vector3 := mkVector3 { x : Q; y : Q; z : Q }.

(** [new Vector3()] *)
Definition new_Vector3 : Vector3 := mkVector3 0 0 0.

(** [v.add(w)] *)
Definition add (v w : Vector3) : Vector3 :=
  mkVector3 (x v + x w) (y v + y w) (z v + z w).

(** [v.multiplyScalar(s)] *)
Definition multiplyScalar (v : Vector3) (s : Q) : Vector3 :=
  mkVector3 (x v * s) (y v * s) (z v * s).

(** [v.divideScalar(s)], which three.js defines as [multiplyScalar(1 / s)]. *)
Definition divideScalar (v : Vector3) (s : Q) : Vector3 :=
  multiplyScalar v (1 / s).

(** Component-wise equality of vectors up to [Qeq]. *)
Definition veq (v w : Vector3) : Prop :=
  x v == x w /\ y v == y w /\ z v == z w.

(** An RGB colour [{r, g, b}] as stored in an attribute record. *)
Record RGB := mkRGB { r : Q; g : Q; b : Q }.

(** One per-point attribute record of a leaf; [color] may be absent. *)
Record AttrRecord := mkAttr { color : option RGB }.

(** [leaf.data]: the points of a leaf and their attribute records. *)
Record PointData := mkPointData {
  points : list Vector3;
  data : list AttrRecord
}.

(** One element yielded by [octree.leaves()]; [leaf.data] may be [null]. *)
Record Leaf := mkLeaf { leaf_data : option PointData }.

(** The traversal [octree.leaves()] in the order it is yielded. *)
Definition Octree := list Leaf.

(** ** Heap objects *)

Definition ref := nat.

(** A buffer geometry: the [position] attribute (one vector per vertex), the
    triangle [index] (three entries per triangle) and the optional [color]
    attribute (one triple per vertex).  The [normal] and [uv] attributes are
    not represented: no operation of [VoxelLoader] reads them. *)
Record BufferGeometry := mkGeometry {
  position : list Vector3;
  index : list nat;
  attr_color : option (list Vector3)
}.

(** The three.js colour modes of a material. *)
Inductive Colors := NoColors | FaceColors | VertexColors.

Record Material := mkMaterial {
  m_color : Z;
  vertexColors : Colors
}.

Record Heap := mkHeap {
  geometries : list BufferGeometry;
  materials : list Material
}.

Definition empty_heap : Heap := mkHeap [] [].

(** [new Mesh(geometry, material)] holds two references. *)
Record Mesh := mkMesh {
  geometry : ref;
  material : option ref
}.

(** ** Computations

    A method call starts in a heap and either returns a value and a heap,
    throws an exception (named as JavaScript names it), or follows a
    reference that names no object, which no JavaScript program can do. *)

Inductive outcome (A : Type) :=
| Returns (a : A) (h : Heap)
| Throws (name : string)
| Dangling.
Arguments Returns {A} a h.
Arguments Throws {A} name.
Arguments Dangling {A}.

Definition JS (A : Type) := Heap -> outcome A.

Definition ret {A} (a : A) : JS A := fun h => Returns a h.

Definition bind {A B} (m : JS A) (k : A -> JS B) : JS B :=
  fun h => match m h with
           | Returns a h' => k a h'
           | Throws e => Throws e
           | Dangling => Dangling
           end.

Definition throw {A} (name : string) : JS A := fun _ => Throws name.

Declare Scope js_scope.
Delimit Scope js_scope with js.
Notation "v <- m ;; k" := (bind m (fun v => k))
  (at level 100, m at next level, right associativity) : js_scope.
Notation "m ;;; k" := (bind m (fun _ => k))
  (at level 100, right associativity) : js_scope.
Local Open Scope js_scope.

Definition TypeError : string := "TypeError".

(** Allocation of a geometry: the new object gets the next free reference. *)
Definition alloc_geometry (geo : BufferGeometry) : JS ref :=
  fun h => Returns (length (geometries h))
                   (mkHeap (geometries h ++ [geo]) (materials h)).

Definition read_geometry (p : ref) : JS BufferGeometry :=
  fun h => match geometries h !! p with
           | Some geo => Returns geo h
           | None => Dangling
           end.

Definition write_geometry (p : ref) (geo : BufferGeometry) : JS unit :=
  fun h => match geometries h !! p with
           | Some _ => Returns tt (mkHeap (<[p := geo]> (geometries h)) (materials h))
           | None => Dangling
           end.

Definition alloc_material (m : Material) : JS ref :=
  fun h => Returns (length (materials h))
                   (mkHeap (geometries h) (materials h ++ [m])).

Definition read_material (p : ref) : JS Material :=
  fun h => match materials h !! p with
           | Some m => Returns m h
           | None => Dangling
           end.

Definition write_material (p : ref) (m : Material) : JS unit :=
  fun h => match materials h !! p with
           | Some _ => Returns tt (mkHeap (geometries h) (<[p := m]> (materials h)))
           | None => Dangling
           end.

(** ** three.js geometry operations

    three.js is an external dependency of the repository; the operations
    below follow its documented behaviour on the attributes represented in
    [BufferGeometry]. *)

Inductive Axis := AxisX | AxisY | AxisZ.

(** [vector[a] = v] *)
Definition setComponent (a : Axis) (v : Q) (vec : Vector3) : Vector3 :=
  match a with
  | AxisX => mkVector3 v (y vec) (z vec)
  | AxisY => mkVector3 (x vec) v (z vec)
  | AxisZ => mkVector3 (x vec) (y vec) v
  end.

(** One face of a box with a single segment in each direction: the four
    corners, row by row, as [buildPlane] of [BoxGeometry] generates them. *)
Definition buildPlane_vertices (u v w : Axis) (udir vdir width height depth : Q)
  : list Vector3 :=
  let segmentWidth := width / 1 in
  let segmentHeight := height / 1 in
  let widthHalf := width / 2 in
  let heightHalf := height / 2 in
  let depthHalf := depth / 2 in
  let vertex (ix iy : Q) :=
    let yv := iy * segmentHeight - heightHalf in
    let xv := ix * segmentWidth - widthHalf in
    setComponent w depthHalf
      (setComponent v (yv * vdir) (setComponent u (xv * udir) new_Vector3)) in
  [vertex 0 0; vertex 1 0; vertex 0 1; vertex 1 1].

(** The two triangles [(a, b, d)] and [(b, c, d)] of a face whose first
    vertex has number [n]. *)
Definition buildPlane_indices (n : nat) : list nat :=
  let a := n in
  let b := (n + 2)%nat in
  let c := (n + 3)%nat in
  let d := (n + 1)%nat in
  [a; b; d; b; c; d].

(** Modelled from the spec: [new BoxGeometry(width, height, depth)] belongs
    to three.js and is not under src/.  An unshared-vertex box: six faces
    (+x, -x, +y, -y, +z, -z) of four vertices and two triangles each,
    centred at the local origin; no colour attribute. *)
Definition BoxGeometry_value (width height depth : Q) : BufferGeometry :=
  mkGeometry
    (buildPlane_vertices AxisZ AxisY AxisX (-1) (-1) depth height width
     ++ buildPlane_vertices AxisZ AxisY AxisX 1 (-1) depth height (- width)
     ++ buildPlane_vertices AxisX AxisZ AxisY 1 1 width depth height
     ++ buildPlane_vertices AxisX AxisZ AxisY 1 (-1) width depth (- height)
     ++ buildPlane_vertices AxisX AxisY AxisZ 1 (-1) width height depth
     ++ buildPlane_vertices AxisX AxisY AxisZ (-1) (-1) width height (- depth))
    (buildPlane_indices 0 ++ buildPlane_indices 4 ++ buildPlane_indices 8
     ++ buildPlane_indices 12 ++ buildPlane_indices 16 ++ buildPlane_indices 20)
    None.

Definition new_BoxGeometry (width height depth : Q) : JS ref :=
  alloc_geometry (BoxGeometry_value width height depth).

(** [geometry.attributes.position.count] *)
Definition position_count (p : ref) : JS nat :=
  geo <- read_geometry p ;; ret (length (position geo)).

(** [geometry.setAttribute("color", new THREE.BufferAttribute(new
    Float32Array(count * 3), 3))]: a zero-filled attribute of [count]
    triples.  The global [THREE] that the source refers to is taken to be
    the three.js module. *)
Definition setAttribute_color (p : ref) (count : nat) : JS unit :=
  geo <- read_geometry p ;;
  write_geometry p
    (mkGeometry (position geo) (index geo) (Some (replicate count new_Vector3))).

(** [geometry.attributes.color.setXYZ(i, cx, cy, cz)]; reading a property of
    the missing attribute is a [TypeError], and a typed array ignores a
    write past its end. *)
Definition color_setXYZ (p : ref) (i : nat) (cx cy cz : Q) : JS unit :=
  geo <- read_geometry p ;;
  match attr_color geo with
  | None => throw TypeError
  | Some cols =>
      write_geometry p
        (mkGeometry (position geo) (index geo)
                    (Some (<[i := mkVector3 cx cy cz]> cols)))
  end.

(** The translation of every vertex of a geometry value. *)
Definition translate_value (tx ty tz : Q) (geo : BufferGeometry) : BufferGeometry :=
  mkGeometry
    (map (fun v => mkVector3 (x v + tx) (y v + ty) (z v + tz)) (position geo))
    (index geo) (attr_color geo).

(** Modelled from the spec: [geometry.translate(tx, ty, tz)] belongs to
    three.js; it moves the geometry it is called on, in place. *)
Definition translate (p : ref) (tx ty tz : Q) : JS unit :=
  geo <- read_geometry p ;;
  write_geometry p (translate_value tx ty tz geo).

(** The concatenation of two geometries that carry the same attributes: the
    indices of the second are shifted by the vertex count of the first. *)
Definition merge_values (g1 g2 : BufferGeometry) : option BufferGeometry :=
  let idx := index g1 ++ map (fun j => (j + length (position g1))%nat) (index g2) in
  match attr_color g1, attr_color g2 with
  | None, None => Some (mkGeometry (position g1 ++ position g2) idx None)
  | Some c1, Some c2 =>
      Some (mkGeometry (position g1 ++ position g2) idx (Some (c1 ++ c2)))
  | _, _ => None
  end.

(** Modelled from the spec: [BufferGeometryUtils.mergeBufferGeometries([p1,
    p2])] belongs to three.js.  It builds a new geometry that concatenates
    its inputs and leaves them untouched; when one input has an attribute
    that the other lacks it reports the mismatch and returns [null]. *)
Definition mergeBufferGeometries (p1 p2 : ref) : JS (option ref) :=
  g1 <- read_geometry p1 ;;
  g2 <- read_geometry p2 ;;
  match merge_values g1 g2 with
  | Some merged => (p <- alloc_geometry merged ;; ret (Some p))
  | None => ret None
  end.

(** [geometry.computeFaceNormals()] and [geometry.computeVertexNormals()]
    write only the normal attribute. *)
Definition computeFaceNormals (p : ref) : JS unit :=
  _ <- read_geometry p ;; ret tt.
Definition computeVertexNormals (p : ref) : JS unit :=
  _ <- read_geometry p ;; ret tt.

(** Number of triangles of an indexed geometry. *)
Definition triangle_count (geo : BufferGeometry) : nat :=
  (length (index geo) / 3)%nat.

(** ** The class [VoxelLoader] *)

(** The fields of a loader that [generateMesh] and the setters use.  The
    constructor initialises both to [null] before it calls the setters. *)
Record VoxelLoader := mkLoader {
  this_material : option ref;
  this_voxelSize : option Q
}.

(** [setVoxelMaterial(material)]; [None] is a call without argument. *)
Definition setVoxelMaterial (material : option ref) (this : VoxelLoader)
  : JS VoxelLoader :=
  defaultMaterial <- alloc_material (mkMaterial 0xffffff NoColors) ;;
  let material := match material with
                  | Some m => m
                  | None => defaultMaterial
                  end in
  m <- read_material material ;;
  write_material material (mkMaterial (m_color m) VertexColors) ;;;
  ret (mkLoader (Some material) (this_voxelSize this)).

(** [setVoxelSize(voxelSize = 1)]; [None] is a call without argument. *)
Definition setVoxelSize (voxelSize : option Q) (this : VoxelLoader)
  : JS VoxelLoader :=
  let voxelSize := match voxelSize with Some v => v | None => 1 end in
  ret (mkLoader (this_material this) (Some voxelSize)).

(** [new VoxelLoader(manager)] *)
Definition new_VoxelLoader : JS VoxelLoader :=
  this <- setVoxelMaterial None (mkLoader None None) ;;
  setVoxelSize None this.

(** The running values of the scan over a leaf's points: [pos], [min],
    [max] and the loop counter [i]. *)
Record Scan := mkScan {
  s_pos : Vector3;
  s_min : Vector3;
  s_max : Vector3;
  s_i : nat
}.

(** One iteration of the loop over [leaf.data.points]. *)
Definition scan_point (s : Scan) (point : Vector3) : Scan :=
  mkScan
    (add (s_pos s) point)
    (mkVector3 (Math_min (x (s_min s)) (x point))
               (Math_min (y (s_min s)) (y point))
               (Math_min (z (s_min s)) (z point)))
    (mkVector3 (Math_max (x (s_max s)) (x point))
               (Math_max (y (s_max s)) (y point))
               (Math_max (z (s_max s)) (z point)))
    (S (s_i s)).

(** The whole loop; [p0] is [leaf.data.points[0]]. *)
Definition scan_points (p0 : Vector3) (pts : list Vector3) : Scan :=
  fold_left scan_point pts (mkScan new_Vector3 p0 p0 0%nat).

(** The three arguments handed to [new BoxGeometry]: the expressions of
    lines 116-118, read over exact rationals.  The source evaluates them in
    IEEE doubles, so a value computed here can differ from the source's in
    the last digits (and at magnitudes where doubles have no hundredths);
    the properties stated for them below are those that survive the
    rounding of every operation. *)
Definition box_width (voxelSize : option Q) (s : Scan) : Q :=
  Math_round ((ToNumber voxelSize + (x (s_max s) - x (s_min s))) * 100) / 100.
Definition box_height (voxelSize : option Q) (s : Scan) : Q :=
  Math_round ((ToNumber voxelSize + (y (s_max s) - y (s_min s))) * 100) / 100.
Definition box_depth (voxelSize : option Q) (s : Scan) : Q :=
  Math_round ((ToNumber voxelSize + (z (s_max s) - z (s_min s))) * 100) / 100.

(** [pos.divideScalar(i)] after the loop, read over exact rationals: the
    source accumulates [pos] in doubles, in the order of the points. *)
Definition centroid (s : Scan) : Vector3 :=
  divideScalar (s_pos s) (inject_Z (Z.of_nat (s_i s))).

(** [for (let i = start; i != start + n; i++) body(i)] *)
Fixpoint for_count (n : nat) (i : nat) (body : nat -> JS unit) : JS unit :=
  match n with
  | O => ret tt
  | S n' => body i ;;; for_count n' (S i) body
  end.

(** The colour block: nothing when [rgb] is absent, else a fresh colour
    attribute whose every entry is set to the normalised colour. *)
Definition paint (voxelGeometry : ref) (rgb : option RGB) : JS unit :=
  match rgb with
  | None => ret tt
  | Some c =>
      count <- position_count voxelGeometry ;;
      setAttribute_color voxelGeometry count ;;;
      for_count count 0%nat
        (fun i => color_setXYZ voxelGeometry i (r c / 255) (g c / 255) (b c / 255))
  end.

(** The body of the loop over the leaves for a leaf that passes the guard. *)
Definition voxel (this : VoxelLoader) (mergedGeometry : option ref)
    (d : PointData) (p0 : Vector3) : JS (option ref) :=
  let s := scan_points p0 (points d) in
  let width := box_width (this_voxelSize this) s in
  let height := box_height (this_voxelSize this) s in
  let depth := box_depth (this_voxelSize this) s in
  voxelGeometry <- new_BoxGeometry width height depth ;;
  let pos := centroid s in
  match data d !! 0%nat with
  | None => throw TypeError
  | Some data0 =>
      let rgb := color data0 in
      paint voxelGeometry rgb ;;;
      translate voxelGeometry (x pos) (y pos) (z pos) ;;;
      merged <- match mergedGeometry with
                | None => ret (Some voxelGeometry)
                | Some m => mergeBufferGeometries m voxelGeometry
                end ;;
      translate voxelGeometry (- x pos) (- y pos) (- z pos) ;;;
      ret merged
  end.

(** The guard [leaf?.data?.points?.length] and the loop body. *)
Definition visit_leaf (this : VoxelLoader) (mergedGeometry : option ref)
    (leaf : Leaf) : JS (option ref) :=
  match leaf_data leaf with
  | None => ret mergedGeometry
  | Some d =>
      match points d with
      | [] => ret mergedGeometry
      | p0 :: _ => voxel this mergedGeometry d p0
      end
  end.

(** [for (const leaf of octree.leaves()) ...] *)
Fixpoint visit_leaves (this : VoxelLoader) (mergedGeometry : option ref)
    (leaves : list Leaf) : JS (option ref) :=
  match leaves with
  | [] => ret mergedGeometry
  | leaf :: rest =>
      merged <- visit_leaf this mergedGeometry leaf ;;
      visit_leaves this merged rest
  end.

(** [generateMesh(octree)] *)
Definition generateMesh (this : VoxelLoader) (octree : Octree) : JS Mesh :=
  let material := this_material this in
  mergedGeometry <- visit_leaves this None octree ;;
  match mergedGeometry with
  | None => throw TypeError
  | Some m =>
      computeFaceNormals m ;;;
      computeVertexNormals m ;;;
      ret (mkMesh m material)
  end.


(** ** [loadOctree]: the file extension

    [loadOctree] picks the loader by the extension of the URL, the
    expression [url.split('.').pop().toLowerCase()].  Strings are sequences
    of 8-bit characters. *)

(** [s.split(sep)] for a one-character separator: the pieces of [s] between
    the occurrences of [sep]; never empty. *)
Fixpoint split (sep : ascii) (s : string) : list string :=
  match s with
  | EmptyString => [EmptyString]
  | String c s' =>
      if Ascii.eqb c sep then EmptyString :: split sep s'
      else match split sep s' with
           | piece :: pieces => String c piece :: pieces
           | [] => [String c EmptyString]
           end
  end.

(** [c.toLowerCase()] on a character of the ASCII range: the letters A-Z
    become a-z, every other character stays. *)
Definition toLowerCase_char (c : ascii) : ascii :=
  let n := nat_of_ascii c in
  if ((65 <=? n) && (n <=? 90))%nat then ascii_of_nat (n + 32) else c.

(** [s.toLowerCase()] *)
Fixpoint toLowerCase (s : string) : string :=
  match s with
  | EmptyString => EmptyString
  | String c s' => String (toLowerCase_char c) (toLowerCase s')
  end.

(** [url.split('.').pop().toLowerCase()]: [pop()] yields the last piece, or
    [undefined] on an empty array, on which [toLowerCase] is a [TypeError]
    ([None]). *)
Definition extension (url : string) : option string :=
  match last (split "." url) with
  | Some piece => Some (toLowerCase piece)
  | None => None
  end.

(** * Specification vocabulary

    The notions the properties below are stated with.  None of them is part
    of the program. *)

(** The spec's [round2]: multiply by 100, round, divide by 100. *)
Definition round2 (v : Q) : Q := Math_round (v * 100) / 100.

(** [m] is the least (greatest) value of coordinate [f] over [pts]. *)
Definition is_minimum (f : Vector3 -> Q) (pts : list Vector3) (m : Q) : Prop :=
  (exists p, In p pts /\ f p == m) /\ (forall p, In p pts -> m <= f p).
Definition is_maximum (f : Vector3 -> Q) (pts : list Vector3) (m : Q) : Prop :=
  (exists p, In p pts /\ f p == m) /\ (forall p, In p pts -> f p <= m).

(** The sum of a list of numbers, and the arithmetic mean of a list of
    points: the sum of the points divided by their count. *)
Definition Qsum (l : list Q) : Q := fold_right Qplus 0 l.
Definition Qcount (pts : list Vector3) : Q := inject_Z (Z.of_nat (length pts)).
Definition mean (pts : list Vector3) : Vector3 :=
  mkVector3 (Qsum (map x pts) / Qcount pts)
            (Qsum (map y pts) / Qcount pts)
            (Qsum (map z pts) / Qcount pts).

(** Running minimum, maximum and sum of one coordinate [f], as the scan
    accumulates them. *)
Definition running_min (f : Vector3 -> Q) (pts : list Vector3) (m : Q) : Q :=
  fold_left (fun acc p => Math_min acc (f p)) pts m.
Definition running_max (f : Vector3 -> Q) (pts : list Vector3) (m : Q) : Q :=
  fold_left (fun acc p => Math_max acc (f p)) pts m.
Definition running_sum (f : Vector3 -> Q) (pts : list Vector3) (m : Q) : Q :=
  fold_left (fun acc p => acc + f p) pts m.

(** [n] successive writes of [v] starting at entry [i]. *)
Fixpoint set_range (n i : nat) (v : Vector3) (cols : list Vector3)
  : list Vector3 :=
  match n with
  | O => cols
  | S n' => set_range n' (S i) v (<[i := v]> cols)
  end.

(** The normalised colour written to every vertex. *)
Definition normalized (c : RGB) : Vector3 :=
  mkVector3 (r c / 255) (g c / 255) (b c / 255).

(** The value of a geometry after the colour block. *)
Definition painted (rgb : option RGB) (geo : BufferGeometry) : BufferGeometry :=
  match rgb with
  | None => geo
  | Some c =>
      mkGeometry (position geo) (index geo)
                 (Some (replicate (length (position geo)) (normalized c)))
  end.

(** The three values a voxel's geometry object takes during one pass of the
    loop body: the box as built, the painted box moved to the centroid
    (which is what a merge reads), and the box after the closing
    translation. *)
Definition voxel_box (this : VoxelLoader) (d : PointData) (p0 : Vector3)
  : BufferGeometry :=
  let s := scan_points p0 (points d) in
  BoxGeometry_value (box_width (this_voxelSize this) s)
                    (box_height (this_voxelSize this) s)
                    (box_depth (this_voxelSize this) s).

Definition voxel_pos (d : PointData) (p0 : Vector3) : Vector3 :=
  centroid (scan_points p0 (points d)).

Definition voxel_world (this : VoxelLoader) (d : PointData) (p0 : Vector3)
    (rgb : option RGB) : BufferGeometry :=
  translate_value (x (voxel_pos d p0)) (y (voxel_pos d p0)) (z (voxel_pos d p0))
    (painted rgb (voxel_box this d p0)).

Definition voxel_local (this : VoxelLoader) (d : PointData) (p0 : Vector3)
    (rgb : option RGB) : BufferGeometry :=
  translate_value (- x (voxel_pos d p0)) (- y (voxel_pos d p0))
    (- z (voxel_pos d p0)) (voxel_world this d p0 rgb).

(** The guard [leaf?.data?.points?.length] as a boolean. *)
Definition has_points (leaf : Leaf) : bool :=
  match leaf_data leaf with
  | Some d => match points d with [] => false | _ :: _ => true end
  | None => false
  end.

(** [leaf.data.data[0]], when [leaf.data] is an object. *)
Definition first_record (leaf : Leaf) : option AttrRecord :=
  match leaf_data leaf with
  | Some d => data d !! 0%nat
  | None => None
  end.

Definition colored (data0 : AttrRecord) : bool :=
  match color data0 with Some _ => true | None => false end.

Definition has_color (geo : BufferGeometry) : bool :=
  match attr_color geo with Some _ => true | None => false end.

(** K: the number of leaves that pass the guard. *)
Definition non_empty_leaves (octree : Octree) : nat :=
  length (List.filter has_points octree).

(** [k] boxes: 24 vertices and 36 index entries for each. *)
Definition boxes (k : nat) (flag : bool) (geo : BufferGeometry) : Prop :=
  length (position geo) = (24 * k)%nat /\
  length (index geo) = (36 * k)%nat /\
  has_color geo = flag.

(** What the loop knows about [mergedGeometry] after [k] voxels. *)
Definition merged_holds (k : nat) (flag : bool) (gs : list BufferGeometry)
    (mergedGeometry : option ref) : Prop :=
  match mergedGeometry with
  | None => k = 0%nat
  | Some m => (1 <= k)%nat /\ exists gm, gs !! m = Some gm /\ boxes k flag gm
  end.

(** A leaf that passes the guard has a first attribute record, and that
    record has a colour exactly when [flag] says so. *)
Definition agrees (flag : bool) (leaf : Leaf) : Prop :=
  has_points leaf = true ->
  exists data0, first_record leaf = Some data0 /\ colored data0 = flag.

(** [mergedGeometry] is [undefined] or names an object of the heap. *)
Definition allocated (h : Heap) (mergedGeometry : option ref) : Prop :=
  match mergedGeometry with
  | Some m => is_Some (geometries h !! m)
  | None => True
  end.

(** A computation that never changes the material store. *)
Definition keeps_materials {A} (m : JS A) : Prop :=
  forall h a h', m h = Returns a h' -> materials h' = materials h.

(** ** Vocabulary of the further properties *)

(** A leaf with its attribute records cut down to the first one. *)
Definition first_record_only (leaf : Leaf) : Leaf :=
  match leaf_data leaf with
  | Some d => mkLeaf (Some (mkPointData (points d) (firstn 1 (data d))))
  | None => leaf
  end.

(** [h'] is [h] with geometry objects added: the materials and the
    geometries of [h] are as they were. *)
Definition grows (h h' : Heap) : Prop :=
  materials h' = materials h /\
  exists added, geometries h' = geometries h ++ added.

(** [mergedGeometry] names an object allocated since the heap had [n]
    geometries. *)
Definition recent (n : nat) (h : Heap) (mergedGeometry : option ref) : Prop :=
  (n <= length (geometries h))%nat /\
  match mergedGeometry with
  | Some m => (n <= m < length (geometries h))%nat
  | None => True
  end.

(** The loop over the leaves on geometry values, without heap: the value
    that [mergedGeometry] names after one leaf ([None] inside: [undefined]
    or [null]; [None] outside: the body threw). *)
Definition merged_step (this : VoxelLoader) (acc : option BufferGeometry)
    (leaf : Leaf) : option (option BufferGeometry) :=
  match leaf_data leaf with
  | None => Some acc
  | Some d =>
      match points d with
      | [] => Some acc
      | p0 :: _ =>
          match data d !! 0%nat with
          | None => None
          | Some data0 =>
              Some (match acc with
                    | None => Some (voxel_local this d p0 (color data0))
                    | Some gm => merge_values gm (voxel_world this d p0 (color data0))
                    end)
          end
      end
  end.

Fixpoint merged_steps (this : VoxelLoader) (acc : option BufferGeometry)
    (octree : Octree) : option (option BufferGeometry) :=
  match octree with
  | [] => Some acc
  | leaf :: rest =>
      match merged_step this acc leaf with
      | None => None
      | Some acc' => merged_steps this acc' rest
      end
  end.

(** The reference [mergedGeometry] names the value [acc]. *)
Definition names (gs : list BufferGeometry) (mergedGeometry : option ref)
    (acc : option BufferGeometry) : Prop :=
  match mergedGeometry, acc with
  | None, None => True
  | Some m, Some gm => gs !! m = Some gm
  | _, _ => False
  end.

(** The data of a leaf that the loop body works on: [leaf.data], its first
    point and its first attribute record. *)
Definition leaf_record (leaf : Leaf) : option (PointData * Vector3 * AttrRecord) :=
  match leaf_data leaf with
  | Some d =>
      match points d, data d !! 0%nat with
      | p0 :: _, Some data0 => Some (d, p0, data0)
      | _, _ => None
      end
  | None => None
  end.

(** What a leaf adds to the merged geometry when its box is read by a
    merge: its box at the centroid, and 24 copies of its normalised colour
    when it has one; nothing for a leaf that the loop skips. *)
Definition leaf_world_positions (this : VoxelLoader) (leaf : Leaf) : list Vector3 :=
  match leaf_record leaf with
  | Some (d, p0, data0) => position (voxel_world this d p0 (color data0))
  | None => []
  end.

Definition leaf_colors (leaf : Leaf) : list Vector3 :=
  match leaf_record leaf with
  | Some (_, _, data0) =>
      match color data0 with
      | Some c => replicate 24 (normalized c)
      | None => []
      end
  | None => []
  end.

(** The vertices of the boxes of [octree], each at its centroid, in
    traversal order. *)
Fixpoint world_positions (this : VoxelLoader) (octree : Octree) : list Vector3 :=
  match octree with
  | [] => []
  | leaf :: rest => leaf_world_positions this leaf ++ world_positions this rest
  end.

(** The same with the box of the first processed leaf in local space. *)
Fixpoint mesh_positions (this : VoxelLoader) (octree : Octree) : list Vector3 :=
  match octree with
  | [] => []
  | leaf :: rest =>
      match leaf_record leaf with
      | Some (d, p0, data0) =>
          position (voxel_local this d p0 (color data0)) ++ world_positions this rest
      | None => mesh_positions this rest
      end
  end.

(** The colours of the processed leaves, 24 entries each, in traversal
    order. *)
Fixpoint mesh_colors (octree : Octree) : list Vector3 :=
  match octree with
  | [] => []
  | leaf :: rest => leaf_colors leaf ++ mesh_colors rest
  end.

(** A geometry of whole boxes whose triangles refer to its vertices. *)
Definition well_formed (geo : BufferGeometry) : Prop :=
  Forall (fun j => (j < length (position geo))%nat) (index geo) /\
  (exists k, (1 <= k)%nat /\ length (position geo) = (24 * k)%nat /\
             length (index geo) = (36 * k)%nat) /\
  (forall cols, attr_color geo = Some cols -> length cols = length (position geo)).

(** The default material after [setVoxelMaterial()]. *)
Definition default_material : Material := mkMaterial 0xffffff VertexColors.

(** No character of [s] is a dot. *)
Fixpoint dotless (s : string) : Prop :=
  match s with
  | EmptyString => True
  | String c s' => c <> "."%char /\ dotless s'
  end.

(** Every character of [s] is in the ASCII range, where [toLowerCase] is
    modelled. *)
Fixpoint ascii_only (s : string) : Prop :=
  match s with
  | EmptyString => True
  | String c s' => (nat_of_ascii c < 128)%nat /\ ascii_only s'
  end.

(** ** Sample inputs *)

Definition red : RGB := mkRGB 255 0 0.
Definition leaf_red : Leaf :=
  mkLeaf (Some (mkPointData [mkVector3 5 0 0] [mkAttr (Some red)])).
Definition leaf_plain : Leaf :=
  mkLeaf (Some (mkPointData [mkVector3 0 0 0; mkVector3 2 0 0] [mkAttr None])).
Definition leaf_null : Leaf := mkLeaf None.
Definition leaf_no_points : Leaf := mkLeaf (Some (mkPointData [] [])).
Definition white : Material := mkMaterial 0xffffff VertexColors.
Definition blue : Material := mkMaterial 0x0000ff NoColors.

(** The loader and the heap right after [new VoxelLoader(manager)]. *)
Definition loader0 : VoxelLoader := mkLoader (Some 0%nat) (Some 1).
Definition heap0 : Heap := mkHeap [] [white].

(** * Properties *)

(** ** Rounding *)

Section Rounding.

Lemma Math_round_le (a c : Q) : a <= c -> Math_round a <= Math_round c.
Proof.
  intros Hac. unfold Math_round. rewrite <- Zle_Qle.
  apply Qfloor_resp_le. lra.
Qed.

Lemma Math_round_comp (a c : Q) : a == c -> Math_round a == Math_round c.
Proof.
  intros Hac. unfold Math_round.
  assert (E : Qfloor (a + (1 # 2)) = Qfloor (c + (1 # 2))).
  { apply Qfloor_comp. rewrite Hac. reflexivity. }
  rewrite E. reflexivity.
Qed.

(** Rounding an integer leaves it alone. *)
Lemma Math_round_integer (k : Z) : Math_round (inject_Z k) == inject_Z k.
Proof.
  unfold Math_round.
  assert (E : Qfloor (inject_Z k + (1 # 2)) = k).
  { pose proof (Qfloor_le (inject_Z k + (1 # 2))) as Hlo.
    pose proof (Qlt_floor (inject_Z k + (1 # 2))) as Hhi.
    set (f := Qfloor (inject_Z k + (1 # 2))) in *.
    rewrite inject_Z_plus in Hhi. change (inject_Z 1) with 1 in Hhi.
    assert (H1 : (f < k + 1)%Z).
    { rewrite Zlt_Qlt, inject_Z_plus. change (inject_Z 1) with 1. lra. }
    assert (H2 : (k < f + 1)%Z).
    { rewrite Zlt_Qlt, inject_Z_plus. change (inject_Z 1) with 1. lra. }
    lia. }
  rewrite E. reflexivity.
Qed.

Lemma round2_le (a c : Q) : a <= c -> round2 a <= round2 c.
Proof.
  intros Hac. unfold round2.
  assert (H : Math_round (a * 100) <= Math_round (c * 100))
    by (apply Math_round_le; lra).
  unfold Qdiv. apply Qmult_le_compat_r; [exact H | apply Qinv_le_0_compat; lra].
Qed.

Lemma round2_comp (a c : Q) : a == c -> round2 a == round2 c.
Proof.
  intros Hac. unfold round2.
  rewrite (Math_round_comp (a * 100) (c * 100)); [reflexivity |].
  rewrite Hac. reflexivity.
Qed.

(** A whole multiple of 0.01 is a fixed point of [round2]. *)
Lemma round2_hundredths (v : Q) (k : Z) :
  v * 100 == inject_Z k -> round2 v == v.
Proof.
  intros Hk. unfold round2.
  rewrite (Math_round_comp _ _ Hk), Math_round_integer, <- Hk.
  field.
Qed.

End Rounding.

(** ** The scan over a leaf's points *)

Section Scan.

Variable f : Vector3 -> Q.

Lemma scan_fold (pts : list Vector3) (s : Scan) :
  fold_left scan_point pts s =
  mkScan
    (mkVector3 (running_sum x pts (x (s_pos s)))
               (running_sum y pts (y (s_pos s)))
               (running_sum z pts (z (s_pos s))))
    (mkVector3 (running_min x pts (x (s_min s)))
               (running_min y pts (y (s_min s)))
               (running_min z pts (z (s_min s))))
    (mkVector3 (running_max x pts (x (s_max s)))
               (running_max y pts (y (s_max s)))
               (running_max z pts (z (s_max s))))
    (s_i s + length pts)%nat.
Proof.
  revert s. induction pts as [| p pts IH]; intros s.
  - destruct s as [[] [] [] ?]. simpl. f_equal. lia.
  - simpl fold_left. rewrite IH. cbn. f_equal. lia.
Qed.

Lemma running_sum_Qsum pts m :
  running_sum f pts m == m + Qsum (map f pts).
Proof.
  revert m. induction pts as [| p pts IH]; intros m.
  - cbn. lra.
  - change (running_sum f (p :: pts) m) with (running_sum f pts (m + f p)).
    change (Qsum (map f (p :: pts))) with (f p + Qsum (map f pts)).
    rewrite IH. lra.
Qed.

Lemma running_min_le_start pts m : running_min f pts m <= m.
Proof.
  revert m. induction pts as [| p pts IH]; intros m.
  - cbn. lra.
  - change (running_min f (p :: pts) m)
      with (running_min f pts (Math_min m (f p))).
    eapply Qle_trans; [apply IH | apply Q.le_min_l].
Qed.

Lemma running_max_ge_start pts m : m <= running_max f pts m.
Proof.
  revert m. induction pts as [| p pts IH]; intros m.
  - cbn. lra.
  - change (running_max f (p :: pts) m)
      with (running_max f pts (Math_max m (f p))).
    eapply Qle_trans; [apply Q.le_max_l | apply IH].
Qed.

Lemma running_min_lower pts m p : In p pts -> running_min f pts m <= f p.
Proof.
  revert m. induction pts as [| q pts IH]; intros m Hin; [destruct Hin |].
  change (running_min f (q :: pts) m)
    with (running_min f pts (Math_min m (f q))).
  destruct Hin as [-> | Hin].
  - eapply Qle_trans; [apply running_min_le_start | apply Q.le_min_r].
  - apply IH, Hin.
Qed.

Lemma running_max_upper pts m p : In p pts -> f p <= running_max f pts m.
Proof.
  revert m. induction pts as [| q pts IH]; intros m Hin; [destruct Hin |].
  change (running_max f (q :: pts) m)
    with (running_max f pts (Math_max m (f q))).
  destruct Hin as [-> | Hin].
  - eapply Qle_trans; [apply Q.le_max_r | apply running_max_ge_start].
  - apply IH, Hin.
Qed.

Lemma running_min_attained pts m :
  running_min f pts m == m \/ exists p, In p pts /\ running_min f pts m == f p.
Proof.
  revert m. induction pts as [| q pts IH]; intros m.
  - left. reflexivity.
  - change (running_min f (q :: pts) m)
      with (running_min f pts (Math_min m (f q))).
    destruct (IH (Math_min m (f q))) as [E | (p & Hin & E)].
    + destruct (Q.min_dec m (f q)) as [E' | E'].
      * left. rewrite E. exact E'.
      * right. exists q. split; [now left |]. rewrite E. exact E'.
    + right. exists p. split; [now right | exact E].
Qed.

Lemma running_max_attained pts m :
  running_max f pts m == m \/ exists p, In p pts /\ running_max f pts m == f p.
Proof.
  revert m. induction pts as [| q pts IH]; intros m.
  - left. reflexivity.
  - change (running_max f (q :: pts) m)
      with (running_max f pts (Math_max m (f q))).
    destruct (IH (Math_max m (f q))) as [E | (p & Hin & E)].
    + destruct (Q.max_dec m (f q)) as [E' | E'].
      * left. rewrite E. exact E'.
      * right. exists q. split; [now left |]. rewrite E. exact E'.
    + right. exists p. split; [now right | exact E].
Qed.

Lemma scan_min_is_minimum p0 rest :
  is_minimum f (p0 :: rest) (running_min f (p0 :: rest) (f p0)).
Proof.
  split.
  - destruct (running_min_attained (p0 :: rest) (f p0)) as [E | (p & Hin & E)].
    + exists p0. split; [now left | symmetry; exact E].
    + exists p. split; [exact Hin | symmetry; exact E].
  - intros p Hin. apply running_min_lower, Hin.
Qed.

Lemma scan_max_is_maximum p0 rest :
  is_maximum f (p0 :: rest) (running_max f (p0 :: rest) (f p0)).
Proof.
  split.
  - destruct (running_max_attained (p0 :: rest) (f p0)) as [E | (p & Hin & E)].
    + exists p0. split; [now left | symmetry; exact E].
    + exists p. split; [exact Hin | symmetry; exact E].
  - intros p Hin. apply running_max_upper, Hin.
Qed.

Lemma minimum_unique l m m' : is_minimum f l m -> is_minimum f l m' -> m == m'.
Proof.
  intros [(p & Hp & Ep) Hm] [(p' & Hp' & Ep') Hm'].
  apply Qle_antisym.
  - rewrite <- Ep'. apply Hm, Hp'.
  - rewrite <- Ep. apply Hm', Hp.
Qed.

Lemma maximum_unique l m m' : is_maximum f l m -> is_maximum f l m' -> m == m'.
Proof.
  intros [(p & Hp & Ep) Hm] [(p' & Hp' & Ep') Hm'].
  apply Qle_antisym.
  - rewrite <- Ep. apply Hm', Hp.
  - rewrite <- Ep'. apply Hm, Hp'.
Qed.

End Scan.

(** ** The box builder: dimensions and centre *)

Section BoxBuilder.

Variables (p0 : Vector3) (rest : list Vector3).

(** The scan leaves the extrema of the leaf's points in [min] and [max]. *)
Lemma scan_extrema :
  let s := scan_points p0 (p0 :: rest) in
  (is_minimum x (p0 :: rest) (x (s_min s)) /\
   is_maximum x (p0 :: rest) (x (s_max s))) /\
  (is_minimum y (p0 :: rest) (y (s_min s)) /\
   is_maximum y (p0 :: rest) (y (s_max s))) /\
  (is_minimum z (p0 :: rest) (z (s_min s)) /\
   is_maximum z (p0 :: rest) (z (s_max s))).
Proof.
  unfold scan_points. rewrite scan_fold. cbn [s_min s_max x y z].
  split; [| split]; split;
    first [apply scan_min_is_minimum | apply scan_max_is_maximum].
Qed.

(** The extent of the points along every axis is not negative. *)
Lemma scan_extent_nonneg :
  let s := scan_points p0 (p0 :: rest) in
  0 <= x (s_max s) - x (s_min s) /\
  0 <= y (s_max s) - y (s_min s) /\
  0 <= z (s_max s) - z (s_min s).
Proof.
  unfold scan_points. rewrite scan_fold. cbn [s_min s_max x y z].
  pose proof (running_min_le_start x (p0 :: rest) (x p0)).
  pose proof (running_max_ge_start x (p0 :: rest) (x p0)).
  pose proof (running_min_le_start y (p0 :: rest) (y p0)).
  pose proof (running_max_ge_start y (p0 :: rest) (y p0)).
  pose proof (running_min_le_start z (p0 :: rest) (z p0)).
  pose proof (running_max_ge_start z (p0 :: rest) (z p0)).
  repeat split; lra.
Qed.

(** The three box dimensions are [round2] of the voxel size plus the extent
    of the points, whatever description of the extrema one starts from. *)
Lemma box_dimensions (voxelSize : option Q) (xlo xhi ylo yhi zlo zhi : Q) :
  is_minimum x (p0 :: rest) xlo -> is_maximum x (p0 :: rest) xhi ->
  is_minimum y (p0 :: rest) ylo -> is_maximum y (p0 :: rest) yhi ->
  is_minimum z (p0 :: rest) zlo -> is_maximum z (p0 :: rest) zhi ->
  let s := scan_points p0 (p0 :: rest) in
  box_width voxelSize s == round2 (ToNumber voxelSize + (xhi - xlo)) /\
  box_height voxelSize s == round2 (ToNumber voxelSize + (yhi - ylo)) /\
  box_depth voxelSize s == round2 (ToNumber voxelSize + (zhi - zlo)).
Proof.
  intros Hxl Hxh Hyl Hyh Hzl Hzh s.
  destruct scan_extrema as ((Sxl & Sxh) & (Syl & Syh) & (Szl & Szh)).
  fold s in Sxl, Sxh, Syl, Syh, Szl, Szh.
  pose proof (minimum_unique _ _ _ _ Sxl Hxl) as Exl.
  pose proof (maximum_unique _ _ _ _ Sxh Hxh) as Exh.
  pose proof (minimum_unique _ _ _ _ Syl Hyl) as Eyl.
  pose proof (maximum_unique _ _ _ _ Syh Hyh) as Eyh.
  pose proof (minimum_unique _ _ _ _ Szl Hzl) as Ezl.
  pose proof (maximum_unique _ _ _ _ Szh Hzh) as Ezh.
  unfold box_width, box_height, box_depth.
  repeat split; apply round2_comp; lra.
Qed.

(** After the division, [pos] is the arithmetic mean of the points. *)
Lemma centroid_mean :
  veq (centroid (scan_points p0 (p0 :: rest))) (mean (p0 :: rest)).
Proof.
  unfold centroid, scan_points. rewrite scan_fold.
  unfold veq, divideScalar, multiplyScalar, mean, new_Vector3.
  cbn [s_pos s_i x y z].
  change (0 + length (p0 :: rest))%nat with (length (p0 :: rest)).
  fold (Qcount (p0 :: rest)). rewrite !running_sum_Qsum. unfold Qdiv.
  repeat split; ring.
Qed.

End BoxBuilder.

(** ** Heap operations *)

Section HeapOps.

Variables (gs : list BufferGeometry) (ms : list Material).

Lemma lookup_last (geo : BufferGeometry) :
  (gs ++ [geo]) !! length gs = Some geo.
Proof. apply list_lookup_middle. reflexivity. Qed.

Lemma insert_last (old new : BufferGeometry) :
  <[length gs := new]> (gs ++ [old]) = gs ++ [new].
Proof.
  rewrite insert_app_r_alt by lia. rewrite Nat.sub_diag. reflexivity.
Qed.

(** Reading an object and writing back a function of it. *)
Lemma update_geometry (p : ref) (geo : BufferGeometry)
    (f : BufferGeometry -> BufferGeometry) :
  gs !! p = Some geo ->
  (g0 <- read_geometry p ;; write_geometry p (f g0)) (mkHeap gs ms)
  = Returns tt (mkHeap (<[p := f geo]> gs) ms).
Proof.
  intros Hp. unfold bind, read_geometry, write_geometry.
  cbn [geometries materials]. rewrite Hp. cbn [geometries materials].
  rewrite Hp. reflexivity.
Qed.

Lemma translate_returns (p : ref) (geo : BufferGeometry) (tx ty tz : Q) :
  gs !! p = Some geo ->
  translate p tx ty tz (mkHeap gs ms)
  = Returns tt (mkHeap (<[p := translate_value tx ty tz geo]> gs) ms).
Proof. apply update_geometry. Qed.

End HeapOps.

(** Moving a geometry value there and back. *)
Lemma translate_value_roundtrip (tx ty tz : Q) (geo : BufferGeometry) :
  Forall2 veq
    (position (translate_value (- tx) (- ty) (- tz)
                 (translate_value tx ty tz geo)))
    (position geo) /\
  index (translate_value (- tx) (- ty) (- tz) (translate_value tx ty tz geo))
  = index geo /\
  attr_color (translate_value (- tx) (- ty) (- tz) (translate_value tx ty tz geo))
  = attr_color geo.
Proof.
  repeat split. cbn [translate_value position].
  induction (position geo) as [| v l IH]; cbn [map]; constructor.
  - unfold veq. cbn [x y z]. repeat split; ring.
  - exact IH.
Qed.

(** ** Colour synthesis *)

Section Paint.

Lemma set_range_replicate (n i : nat) (v w : Vector3) :
  set_range n i v (replicate i v ++ replicate n w) = replicate (i + n) v.
Proof.
  revert i. induction n as [| n IH]; intros i.
  - cbn. rewrite app_nil_r, Nat.add_0_r. reflexivity.
  - cbn [set_range replicate].
    rewrite insert_app_r_alt by (rewrite length_replicate; lia).
    rewrite length_replicate, Nat.sub_diag. cbn [insert list_insert].
    change (v :: replicate n w) with ([v] ++ replicate n w).
    rewrite app_assoc, <- replicate_S_end, IH.
    f_equal. lia.
Qed.

Variables (ms : list Material) (p : ref).

(** The colour loop writes entries [i], [i + 1], ..., one per iteration. *)
Lemma paint_loop (c : RGB) (n : nat) (pos : list Vector3) (idx : list nat) :
  forall (i : nat) (cols : list Vector3) (gs : list BufferGeometry),
  gs !! p = Some (mkGeometry pos idx (Some cols)) ->
  for_count n i
    (fun i => color_setXYZ p i (r c / 255) (g c / 255) (b c / 255))
    (mkHeap gs ms)
  = Returns tt
      (mkHeap (<[p := mkGeometry pos idx
                        (Some (set_range n i (normalized c) cols))]> gs) ms).
Proof.
  induction n as [| n IH]; intros i cols gs Hp.
  - cbn. rewrite list_insert_id by exact Hp. reflexivity.
  - cbn [for_count set_range]. unfold bind at 1.
    unfold color_setXYZ at 1. unfold bind at 1, read_geometry at 1.
    cbn [geometries materials]. rewrite Hp. cbn [attr_color position index].
    unfold write_geometry. cbn [geometries materials]. rewrite Hp.
    rewrite (IH (S i) (<[i := mkVector3 (r c / 255) (g c / 255) (b c / 255)]> cols)).
    + rewrite list_insert_insert_eq. reflexivity.
    + apply list_lookup_insert_eq. eapply lookup_lt_Some, Hp.
Qed.

Lemma paint_returns (gs : list BufferGeometry) (rgb : option RGB)
    (geo : BufferGeometry) :
  gs !! p = Some geo ->
  paint p rgb (mkHeap gs ms)
  = Returns tt (mkHeap (<[p := painted rgb geo]> gs) ms).
Proof.
  intros Hp. destruct rgb as [c |]; cbn [paint painted].
  - unfold bind at 1, position_count, bind at 1, read_geometry at 1.
    cbn [geometries materials]. rewrite Hp. cbn [ret].
    unfold bind at 1, setAttribute_color.
    rewrite (update_geometry gs ms p geo
               (fun g0 => mkGeometry (position g0) (index g0)
                            (Some (replicate (length (position geo)) new_Vector3))))
      by exact Hp.
    rewrite (paint_loop c _ (position geo) (index geo) 0
               (replicate (length (position geo)) new_Vector3)).
    + rewrite list_insert_insert_eq.
      pose proof (set_range_replicate (length (position geo)) 0
                    (normalized c) new_Vector3) as E.
      cbn [replicate app Nat.add] in E. rewrite E. reflexivity.
    + apply list_lookup_insert_eq. eapply lookup_lt_Some, Hp.
  - unfold ret. rewrite list_insert_id by exact Hp. reflexivity.
Qed.

End Paint.

(** ** One pass of the loop body *)

Section Voxel.

Variables (this : VoxelLoader) (d : PointData) (p0 : Vector3).
Variables (data0 : AttrRecord) (gs : list BufferGeometry) (ms : list Material).
Hypothesis Hdata : data d !! 0%nat = Some data0.

(** Up to the merge, the body allocates the box, paints it and moves it to
    the centroid. *)
Lemma voxel_prefix (mergedGeometry : option ref) :
  voxel this mergedGeometry d p0 (mkHeap gs ms) =
  (merged <- match mergedGeometry with
             | None => ret (Some (length gs))
             | Some m => mergeBufferGeometries m (length gs)
             end ;;
   translate (length gs) (- x (voxel_pos d p0)) (- y (voxel_pos d p0))
             (- z (voxel_pos d p0)) ;;;
   ret merged) (mkHeap (gs ++ [voxel_world this d p0 (color data0)]) ms).
Proof.
  unfold voxel. fold (voxel_pos d p0). rewrite Hdata.
  unfold bind at 1, new_BoxGeometry, alloc_geometry. cbn [geometries materials].
  fold (voxel_box this d p0).
  unfold bind at 1.
  rewrite (paint_returns ms _ _ _ (voxel_box this d p0)) by apply lookup_last.
  rewrite insert_last.
  unfold bind at 1.
  rewrite (translate_returns _ ms _ (painted (color data0) (voxel_box this d p0)))
    by apply lookup_last.
  rewrite insert_last. fold (voxel_world this d p0 (color data0)). reflexivity.
Qed.

(** The first voxel: [mergedGeometry] becomes the box object itself, which
    the closing translation then moves back. *)
Lemma voxel_first :
  voxel this None d p0 (mkHeap gs ms) =
  Returns (Some (length gs))
          (mkHeap (gs ++ [voxel_local this d p0 (color data0)]) ms).
Proof.
  rewrite voxel_prefix.
  unfold bind at 1, ret at 1. unfold bind at 1.
  rewrite (translate_returns _ ms (length gs) (voxel_world this d p0 (color data0)))
    by apply lookup_last.
  rewrite insert_last. reflexivity.
Qed.

(** A later voxel: the merge builds a new object from the merged geometry
    and the box at its centroid, or yields [null]. *)
Lemma voxel_merge (m : ref) (gm : BufferGeometry) :
  gs !! m = Some gm ->
  voxel this (Some m) d p0 (mkHeap gs ms) =
  match merge_values gm (voxel_world this d p0 (color data0)) with
  | Some merged =>
      Returns (Some (S (length gs)))
              (mkHeap (gs ++ [voxel_local this d p0 (color data0); merged]) ms)
  | None =>
      Returns None (mkHeap (gs ++ [voxel_local this d p0 (color data0)]) ms)
  end.
Proof.
  intros Hm. rewrite voxel_prefix.
  unfold bind at 1, mergeBufferGeometries, bind at 1, read_geometry at 1.
  cbn [geometries materials].
  rewrite (lookup_app_l_Some _ _ _ _ Hm).
  unfold bind at 1, read_geometry at 1. cbn [geometries materials].
  rewrite lookup_last.
  destruct (merge_values gm (voxel_world this d p0 (color data0))) as [merged |].
  - unfold bind at 1, alloc_geometry. cbn [geometries materials ret].
    unfold bind at 1.
    rewrite (translate_returns _ ms (length gs)
               (voxel_world this d p0 (color data0))).
    + rewrite insert_app_l by (rewrite length_app; cbn; lia).
      rewrite insert_last. fold (voxel_local this d p0 (color data0)).
      unfold ret. rewrite length_app, <- app_assoc. cbn [length app].
      repeat f_equal. lia.
    + apply lookup_app_l_Some, lookup_last.
  - unfold ret at 1. unfold bind at 1.
    rewrite (translate_returns _ ms (length gs)
               (voxel_world this d p0 (color data0)))
      by apply lookup_last.
    rewrite insert_last. reflexivity.
Qed.

End Voxel.

(** Without a first attribute record, [data.color] reads a property of
    [undefined]. *)
Lemma voxel_no_record this mergedGeometry d p0 h :
  data d !! 0%nat = None ->
  voxel this mergedGeometry d p0 h = Throws TypeError.
Proof.
  intros Hdata. unfold voxel. rewrite Hdata. reflexivity.
Qed.

(** An octree with a single leaf that passes the guard: the mesh's geometry
    is the box object of that leaf, in the state the closing translation
    leaves it in. *)
Lemma generateMesh_single_leaf this d p0 rest data0 gs ms :
  points d = p0 :: rest ->
  data d !! 0%nat = Some data0 ->
  generateMesh this [mkLeaf (Some d)] (mkHeap gs ms)
  = Returns (mkMesh (length gs) (this_material this))
            (mkHeap (gs ++ [voxel_local this d p0 (color data0)]) ms).
Proof.
  intros Hpts Hdata. unfold generateMesh. cbn [visit_leaves].
  unfold bind at 1 2, visit_leaf. cbn [leaf_data]. rewrite Hpts.
  rewrite (voxel_first this d p0 data0 gs ms Hdata). cbn [ret].
  unfold computeFaceNormals, computeVertexNormals, bind, read_geometry, ret.
  cbn [geometries]. rewrite lookup_last. cbn [geometries].
  rewrite lookup_last. reflexivity.
Qed.

(** ** Sizes of geometries *)

Section Sizes.

Lemma BoxGeometry_sizes (w h d : Q) :
  length (position (BoxGeometry_value w h d)) = 24%nat /\
  length (index (BoxGeometry_value w h d)) = 36%nat /\
  attr_color (BoxGeometry_value w h d) = None.
Proof. repeat split. Qed.

Lemma translate_value_sizes (tx ty tz : Q) (geo : BufferGeometry) :
  length (position (translate_value tx ty tz geo)) = length (position geo) /\
  index (translate_value tx ty tz geo) = index geo /\
  attr_color (translate_value tx ty tz geo) = attr_color geo.
Proof. cbn. rewrite length_map. repeat split. Qed.

Lemma merge_values_boxes (k1 k2 : nat) (flag : bool) (g1 g2 : BufferGeometry) :
  boxes k1 flag g1 -> boxes k2 flag g2 ->
  exists merged, merge_values g1 g2 = Some merged /\ boxes (k1 + k2) flag merged.
Proof.
  intros (P1 & I1 & C1) (P2 & I2 & C2). unfold merge_values, has_color in *.
  destruct (attr_color g1) as [c1 |], (attr_color g2) as [c2 |];
    try (subst flag; discriminate).
  - eexists. split; [reflexivity |]. unfold boxes, has_color. cbn.
    rewrite !length_app, length_map. repeat split; [lia | lia | exact C1].
  - eexists. split; [reflexivity |]. unfold boxes, has_color. cbn.
    rewrite !length_app, length_map. repeat split; [lia | lia | exact C1].
Qed.

Lemma boxes_triangles (k : nat) (flag : bool) (geo : BufferGeometry) :
  boxes k flag geo -> triangle_count geo = (12 * k)%nat.
Proof.
  intros (_ & I & _). unfold triangle_count. rewrite I.
  replace (36 * k)%nat with ((12 * k) * 3)%nat by lia.
  apply Nat.div_mul. lia.
Qed.

Variables (this : VoxelLoader) (d : PointData) (p0 : Vector3).

Lemma voxel_world_boxes (data0 : AttrRecord) :
  boxes 1 (colored data0) (voxel_world this d p0 (color data0)).
Proof.
  unfold boxes, voxel_world, has_color, colored.
  destruct (translate_value_sizes (x (voxel_pos d p0)) (y (voxel_pos d p0))
              (z (voxel_pos d p0)) (painted (color data0) (voxel_box this d p0)))
    as (P & I & C).
  rewrite P, I, C. destruct (color data0); repeat split.
Qed.

Lemma voxel_local_boxes (data0 : AttrRecord) :
  boxes 1 (colored data0) (voxel_local this d p0 (color data0)).
Proof.
  pose proof (voxel_world_boxes data0) as (P & I & C).
  unfold boxes, voxel_local, has_color in *.
  destruct (translate_value_sizes (- x (voxel_pos d p0)) (- y (voxel_pos d p0))
              (- z (voxel_pos d p0)) (voxel_world this d p0 (color data0)))
    as (P' & I' & C').
  rewrite P', I', C'. auto.
Qed.

(** The box object after the pass: 24 vertices, and a colour per vertex
    exactly when the record has one. *)
Lemma voxel_local_color (rgb : option RGB) :
  length (position (voxel_local this d p0 rgb)) = 24%nat /\
  attr_color (voxel_local this d p0 rgb)
  = option_map (fun c => replicate 24 (normalized c)) rgb.
Proof.
  unfold voxel_local, voxel_world. split.
  - cbn [translate_value position]. rewrite !length_map.
    destruct rgb; reflexivity.
  - cbn [translate_value attr_color]. destruct rgb; reflexivity.
Qed.

End Sizes.

(** ** The loop over the leaves *)

Section Loop.

Variables (this : VoxelLoader) (flag : bool).

Lemma visit_leaf_boxes (leaf : Leaf) (k : nat) (mergedGeometry : option ref)
    (gs : list BufferGeometry) (ms : list Material) :
  agrees flag leaf ->
  merged_holds k flag gs mergedGeometry ->
  exists merged gs',
    visit_leaf this mergedGeometry leaf (mkHeap gs ms)
    = Returns merged (mkHeap gs' ms) /\
    merged_holds (k + (if has_points leaf then 1 else 0)) flag gs' merged.
Proof.
  intros Hagree Hinv. unfold visit_leaf, agrees, has_points, first_record in *.
  destruct (leaf_data leaf) as [d |].
  2:{ exists mergedGeometry, gs. rewrite Nat.add_0_r.
      split; [reflexivity | exact Hinv]. }
  destruct (points d) as [| p0 rest] eqn:Hpts.
  { exists mergedGeometry, gs. rewrite Nat.add_0_r.
    split; [reflexivity | exact Hinv]. }
  destruct (Hagree eq_refl) as (data0 & Hdata & Hflag). subst flag.
  destruct mergedGeometry as [m |]; cbn [merged_holds] in Hinv.
  - destruct Hinv as (Hk & gm & Hm & Hgm).
    rewrite (voxel_merge this d p0 data0 gs ms Hdata m gm Hm).
    destruct (merge_values_boxes k 1 _ gm _ Hgm (voxel_world_boxes this d p0 data0))
      as (merged & -> & Hmerged).
    eexists _, _. split; [reflexivity |]. cbn [merged_holds]. split; [lia |].
    exists merged. split; [| exact Hmerged].
    change (gs ++ [voxel_local this d p0 (color data0); merged])
      with (gs ++ [voxel_local this d p0 (color data0)] ++ [merged]).
    rewrite app_assoc.
    replace (S (length gs))
      with (length (gs ++ [voxel_local this d p0 (color data0)]))
      by (rewrite length_app; cbn; lia).
    apply lookup_last.
  - subst k. rewrite (voxel_first this d p0 data0 gs ms Hdata).
    eexists _, _. split; [reflexivity |]. cbn [merged_holds]. split; [lia |].
    exists (voxel_local this d p0 (color data0)). split; [apply lookup_last |].
    apply voxel_local_boxes.
Qed.

Lemma visit_leaves_boxes (octree : Octree) :
  Forall (agrees flag) octree ->
  forall (k : nat) (mergedGeometry : option ref)
         (gs : list BufferGeometry) (ms : list Material),
  merged_holds k flag gs mergedGeometry ->
  exists merged gs',
    visit_leaves this mergedGeometry octree (mkHeap gs ms)
    = Returns merged (mkHeap gs' ms) /\
    merged_holds (k + non_empty_leaves octree) flag gs' merged.
Proof.
  induction 1 as [| leaf rest Hleaf Hrest IH]; intros k mergedGeometry gs ms Hinv.
  - exists mergedGeometry, gs. cbn. rewrite Nat.add_0_r.
    split; [reflexivity | exact Hinv].
  - destruct (visit_leaf_boxes leaf k mergedGeometry gs ms Hleaf Hinv)
      as (merged1 & gs1 & E1 & Hinv1).
    destruct (IH _ merged1 gs1 ms Hinv1) as (merged2 & gs2 & E2 & Hinv2).
    exists merged2, gs2. split.
    + cbn [visit_leaves]. unfold bind. rewrite E1. exact E2.
    + unfold non_empty_leaves in *. cbn [List.filter].
      destruct (has_points leaf); cbn [length];
        [replace (k + S (length (List.filter has_points rest)))%nat
           with (k + 1 + length (List.filter has_points rest))%nat by lia
        | rewrite Nat.add_0_r in Hinv2 ]; exact Hinv2.
Qed.

(** Leaves that fail the guard leave everything as it is. *)
Lemma visit_leaves_skip (octree : Octree) (mergedGeometry : option ref) (h : Heap) :
  Forall (fun leaf => has_points leaf = false) octree ->
  visit_leaves this mergedGeometry octree h = Returns mergedGeometry h.
Proof.
  induction 1 as [| leaf rest Hleaf _ IH]; cbn [visit_leaves]; [reflexivity |].
  unfold bind, visit_leaf. unfold has_points in Hleaf.
  destruct (leaf_data leaf) as [d |]; [| exact IH].
  destruct (points d); [exact IH | discriminate Hleaf].
Qed.

End Loop.

(** ** Frame: the geometry code leaves the materials alone *)

Create HintDb frame.

Section Frame.

Lemma keeps_ret {A} (a : A) : keeps_materials (ret a).
Proof. intros h a' h' E. injection E as _ <-. reflexivity. Qed.

Lemma keeps_throw {A} (e : string) : keeps_materials (@throw A e).
Proof. intros h a h' E. discriminate E. Qed.

Lemma keeps_bind {A B} (m : JS A) (k : A -> JS B) :
  keeps_materials m -> (forall a, keeps_materials (k a)) ->
  keeps_materials (bind m k).
Proof.
  intros Hm Hk h b h' E. unfold bind in E.
  destruct (m h) as [a h1 | e |] eqn:Em; try discriminate E.
  rewrite (Hk a h1 b h' E). exact (Hm h a h1 Em).
Qed.

Lemma keeps_alloc_geometry geo : keeps_materials (alloc_geometry geo).
Proof. intros h a h' E. injection E as _ <-. reflexivity. Qed.

Lemma keeps_read_geometry p : keeps_materials (read_geometry p).
Proof.
  intros h a h' E. unfold read_geometry in E.
  destruct (geometries h !! p); [injection E as _ <- | discriminate E]. reflexivity.
Qed.

Lemma keeps_write_geometry p geo : keeps_materials (write_geometry p geo).
Proof.
  intros h a h' E. unfold write_geometry in E.
  destruct (geometries h !! p); [injection E as _ <- | discriminate E]. reflexivity.
Qed.

#[local] Hint Resolve keeps_ret keeps_throw keeps_alloc_geometry keeps_read_geometry
  keeps_write_geometry : frame.

Ltac frame :=
  repeat first
    [ apply keeps_bind; [| intros ? ]
    | solve [ auto with frame ]
    | match goal with
      | |- keeps_materials (match ?o with _ => _ end) => destruct o
      end ].

Lemma keeps_translate p tx ty tz : keeps_materials (translate p tx ty tz).
Proof. unfold translate. frame. Qed.

Lemma keeps_color_setXYZ p i cx cy cz : keeps_materials (color_setXYZ p i cx cy cz).
Proof. unfold color_setXYZ. frame. Qed.

Lemma keeps_for_count n i body :
  (forall j, keeps_materials (body j)) -> keeps_materials (for_count n i body).
Proof.
  intros Hbody. revert i. induction n as [| n IH]; intros i; cbn [for_count].
  - apply keeps_ret.
  - apply keeps_bind; [apply Hbody | intros _; apply IH].
Qed.

Lemma keeps_paint p rgb : keeps_materials (paint p rgb).
Proof.
  unfold paint, position_count, setAttribute_color. destruct rgb; [| apply keeps_ret].
  frame. apply keeps_for_count. intros j. apply keeps_color_setXYZ.
Qed.

Lemma keeps_mergeBufferGeometries p1 p2 : keeps_materials (mergeBufferGeometries p1 p2).
Proof. unfold mergeBufferGeometries. frame. Qed.

Lemma keeps_voxel this merged d p0 : keeps_materials (voxel this merged d p0).
Proof.
  unfold voxel, new_BoxGeometry.
  apply keeps_bind; [apply keeps_alloc_geometry | intros q].
  destruct (data d !! 0%nat); [| apply keeps_throw].
  apply keeps_bind; [apply keeps_paint | intros _].
  apply keeps_bind; [apply keeps_translate | intros _].
  apply keeps_bind.
  - destruct merged; [apply keeps_mergeBufferGeometries | apply keeps_ret].
  - intros m'. apply keeps_bind; [apply keeps_translate | intros _; apply keeps_ret].
Qed.

Lemma keeps_visit_leaf this merged leaf : keeps_materials (visit_leaf this merged leaf).
Proof.
  unfold visit_leaf. destruct (leaf_data leaf) as [d |]; [| apply keeps_ret].
  destruct (points d); [apply keeps_ret | apply keeps_voxel].
Qed.

Lemma keeps_visit_leaves this octree :
  forall merged, keeps_materials (visit_leaves this merged octree).
Proof.
  induction octree as [| leaf rest IH]; intros merged; cbn [visit_leaves].
  - apply keeps_ret.
  - apply keeps_bind; [apply keeps_visit_leaf | intros m'; apply IH].
Qed.

(** [generateMesh] hands the loader's material reference to the mesh and
    does not touch any material. *)
Lemma generateMesh_material this octree h mesh h' :
  generateMesh this octree h = Returns mesh h' ->
  material mesh = this_material this /\ materials h' = materials h.
Proof.
  intros E. split.
  - unfold generateMesh, bind in E.
    destruct (visit_leaves this None octree h) as [[m |] h1 | e |];
      try discriminate E.
    unfold computeFaceNormals, computeVertexNormals, bind, read_geometry, ret in E.
    destruct (geometries h1 !! m) eqn:Hm; [| discriminate E].
    rewrite Hm in E. injection E as <- _. reflexivity.
  - revert E. generalize mesh h'. generalize h.
    change (keeps_materials (generateMesh this octree)).
    unfold generateMesh, computeFaceNormals, computeVertexNormals.
    apply keeps_bind; [apply keeps_visit_leaves | intros [m |]]; [| apply keeps_throw].
    frame.
Qed.

End Frame.

(** ** Where a voxel's box ends up *)

Section Centre.

Lemma painted_position (rgb : option RGB) (geo : BufferGeometry) :
  position (painted rgb geo) = position geo.
Proof. destruct rgb; reflexivity. Qed.

(** The vertices of a box moved by (tx, ty, tz) have their mean there. *)
Lemma box_centre (w h d tx ty tz : Q) :
  veq (mean (position (translate_value tx ty tz (BoxGeometry_value w h d))))
      (mkVector3 tx ty tz).
Proof.
  unfold veq, mean, Qcount. cbn -[Qplus Qmult Qdiv Qminus Qopp Qinv inject_Z].
  cbn [Z.of_nat Pos.of_succ_nat Pos.succ].
  repeat split; unfold Qsum, foldr, fold_right; field.
Qed.

(** The vertices of a box moved by (tx, ty, tz) and back have their mean at
    the origin. *)
Lemma box_centre_back (w h d tx ty tz : Q) :
  veq (mean (position (translate_value (- tx) (- ty) (- tz)
                         (translate_value tx ty tz (BoxGeometry_value w h d)))))
      (mkVector3 0 0 0).
Proof.
  unfold veq, mean, Qcount. cbn -[Qplus Qmult Qdiv Qminus Qopp Qinv inject_Z].
  cbn [Z.of_nat Pos.of_succ_nat Pos.succ].
  repeat split; unfold Qsum, foldr, fold_right; field.
Qed.

Variables (this : VoxelLoader) (d : PointData) (p0 : Vector3) (rest : list Vector3).
Hypothesis Hpts : points d = p0 :: rest.

(** The box that a merge reads is centred at the mean of the leaf's
    points. *)
Lemma voxel_world_centre (rgb : option RGB) :
  veq (mean (position (voxel_world this d p0 rgb))) (mean (points d)).
Proof.
  pose proof (centroid_mean p0 rest) as (Cx & Cy & Cz).
  unfold voxel_world, voxel_box.
  pose proof (box_centre
                (box_width (this_voxelSize this) (scan_points p0 (points d)))
                (box_height (this_voxelSize this) (scan_points p0 (points d)))
                (box_depth (this_voxelSize this) (scan_points p0 (points d)))
                (x (voxel_pos d p0)) (y (voxel_pos d p0)) (z (voxel_pos d p0)))
    as (Bx & By & Bz).
  cbn [translate_value position] in *. rewrite painted_position.
  unfold voxel_pos in *. rewrite Hpts in *. cbn [x y z] in Bx, By, Bz.
  unfold veq. rewrite Bx, By, Bz. repeat split; assumption.
Qed.

(** The box object after the closing translation is centred at the
    origin. *)
Lemma voxel_local_centre (rgb : option RGB) :
  veq (mean (position (voxel_local this d p0 rgb))) (mkVector3 0 0 0).
Proof.
  unfold voxel_local, voxel_world, voxel_box.
  cbn [translate_value position]. rewrite painted_position.
  apply (box_centre_back
           (box_width (this_voxelSize this) (scan_points p0 (points d)))
           (box_height (this_voxelSize this) (scan_points p0 (points d)))
           (box_depth (this_voxelSize this) (scan_points p0 (points d)))
           (x (voxel_pos d p0)) (y (voxel_pos d p0)) (z (voxel_pos d p0))).
Qed.

End Centre.

(** * The claims *)

(** C1.  The claim asks that the box emitted for a leaf be centred at the
    mean of the leaf's points.  For the octree with the single leaf
    [leaf_red], whose only point is (5, 0, 0), [generateMesh] returns a
    mesh whose geometry has the vertices of the 1 x 1 x 1 box in local
    space: it is centred at the origin, while the mean of the points is
    (5, 0, 0).  The first voxel's geometry object is the merged geometry
    itself, so the closing [translate] moves the merged geometry back. *)
Theorem first_box_left_at_origin :
  exists mesh h geo,
    generateMesh loader0 [leaf_red] heap0 = Returns mesh h /\
    geometries h !! geometry mesh = Some geo /\
    Forall2 veq (position geo) (position (BoxGeometry_value 1 1 1)) /\
    veq (mean (position geo)) (mkVector3 0 0 0) /\
    veq (mean [mkVector3 5 0 0]) (mkVector3 5 0 0).
Proof.
  eexists _, _, _. split; [vm_compute; reflexivity |].
  split; [reflexivity |].
  split; [vm_compute; repeat constructor |].
  split; vm_compute; repeat constructor.
Qed.

(** C2, as amended.  On an octree in which no leaf passes the guard,
    [generateMesh] throws a [TypeError]: [mergedGeometry] is still
    [undefined] when [computeFaceNormals] is called on it. *)
Theorem generateMesh_no_points_TypeError this octree h :
  Forall (fun leaf => has_points leaf = false) octree ->
  generateMesh this octree h = Throws TypeError.
Proof.
  intros Hnone. unfold generateMesh, bind.
  rewrite (visit_leaves_skip this octree None h Hnone). reflexivity.
Qed.

(** C2, witness: an octree of a leaf without data and a leaf without
    points. *)
Lemma generateMesh_no_points_TypeError_witness :
  Forall (fun leaf => has_points leaf = false) [leaf_null; leaf_no_points] /\
  generateMesh loader0 [leaf_null; leaf_no_points] heap0 = Throws TypeError.
Proof.
  assert (H : Forall (fun leaf => has_points leaf = false)
                [leaf_null; leaf_no_points]) by (repeat constructor).
  split; [exact H |].
  exact (generateMesh_no_points_TypeError loader0 _ heap0 H).
Defined.

(** C2, counterexample: on that octree the exception is not an
    [EmptyResultError]. *)
Lemma generateMesh_empty_not_EmptyResultError :
  Forall (fun leaf => has_points leaf = false) [leaf_null; leaf_no_points] /\
  generateMesh loader0 [leaf_null; leaf_no_points] heap0
  <> Throws "EmptyResultError".
Proof. split; [repeat constructor | discriminate]. Qed.

(** X19.  When every leaf that passes the guard has a first attribute
    record, and these records all have a colour or all lack one, an octree
    with K >= 1 such leaves yields a mesh whose geometry has 24 * K
    vertices and 36 * K index entries, that is 12 * K triangles, whatever
    the number of leaves that fail the guard. *)
Theorem generateMesh_boxes this octree h flag :
  Forall (agrees flag) octree ->
  (1 <= non_empty_leaves octree)%nat ->
  exists mesh h' geo,
    generateMesh this octree h = Returns mesh h' /\
    geometries h' !! geometry mesh = Some geo /\
    length (position geo) = (24 * non_empty_leaves octree)%nat /\
    length (index geo) = (36 * non_empty_leaves octree)%nat /\
    triangle_count geo = (12 * non_empty_leaves octree)%nat.
Proof.
  intros Hagree HK. destruct h as [gs ms].
  destruct (visit_leaves_boxes this flag octree Hagree 0 None gs ms eq_refl)
    as (merged & gs' & E & Hinv).
  cbn [Nat.add] in Hinv. destruct merged as [m |]; cbn [merged_holds] in Hinv.
  - destruct Hinv as (_ & gm & Hm & Hgm).
    exists (mkMesh m (this_material this)), (mkHeap gs' ms), gm.
    split; [| split; [exact Hm |]].
    + unfold generateMesh, bind. rewrite E.
      unfold computeFaceNormals, computeVertexNormals, bind, read_geometry, ret.
      cbn [geometries]. rewrite Hm. cbn [geometries]. rewrite Hm. reflexivity.
    + pose proof (boxes_triangles _ _ _ Hgm). destruct Hgm as (P & I & _). auto.
  - lia.
Qed.

(** X19, witness: two uncoloured leaves with points among two leaves
    without. *)
Lemma generateMesh_boxes_witness :
  exists mesh h' geo,
    generateMesh loader0 [leaf_null; leaf_plain; leaf_no_points; leaf_plain] heap0
    = Returns mesh h' /\
    geometries h' !! geometry mesh = Some geo /\
    length (position geo) = 48%nat /\
    length (index geo) = 72%nat /\
    triangle_count geo = 24%nat.
Proof.
  apply (generateMesh_boxes loader0
           [leaf_null; leaf_plain; leaf_no_points; leaf_plain] heap0 false).
  - repeat constructor; intros H; try discriminate H;
      (eexists; split; reflexivity).
  - vm_compute. lia.
Defined.

(** C3.  The claim, like the comment of [generateMesh] ("one cube for each
    voxel"), asks for K boxes and 12 * K triangles when K leaves have
    points.  On the octree of a coloured, an uncoloured and a coloured
    leaf, K = 3, [generateMesh] returns a mesh of one box, 24 vertices and
    12 triangles: the merge of the first two boxes yields [null], which
    line 135 does not check, and the third box starts over. *)
Theorem generateMesh_mixed_colors_loses_boxes :
  non_empty_leaves [leaf_red; leaf_plain; leaf_red] = 3%nat /\
  exists mesh h geo,
    generateMesh loader0 [leaf_red; leaf_plain; leaf_red] heap0 = Returns mesh h /\
    geometries h !! geometry mesh = Some geo /\
    length (position geo) = 24%nat /\
    triangle_count geo = 12%nat.
Proof.
  split; [reflexivity |].
  eexists _, _, _. split; [vm_compute; reflexivity |].
  split; [reflexivity |]. split; reflexivity.
Qed.

(** One pass of the loop body over leaf data whose first attribute record
    is [data0]: the pass returns, and the box object it allocated has 24
    vertices and a colour attribute as [data0] prescribes. *)
Lemma voxel_color this mergedGeometry d p0 data0 h :
  data d !! 0%nat = Some data0 ->
  allocated h mergedGeometry ->
  exists merged h' geo,
    voxel this mergedGeometry d p0 h = Returns merged h' /\
    geometries h' !! length (geometries h) = Some geo /\
    length (position geo) = 24%nat /\
    attr_color geo =
      match color data0 with
      | Some c =>
          Some (replicate (length (position geo))
                          (mkVector3 (r c / 255) (g c / 255) (b c / 255)))
      | None => None
      end.
Proof.
  intros Hdata Halloc. destruct h as [gs ms]. cbn [geometries] in *.
  destruct (voxel_local_color this d p0 (color data0)) as (HP & HC).
  assert (Hgeo : attr_color (voxel_local this d p0 (color data0)) =
                 match color data0 with
                 | Some c =>
                     Some (replicate
                             (length (position (voxel_local this d p0 (color data0))))
                             (mkVector3 (r c / 255) (g c / 255) (b c / 255)))
                 | None => None
                 end).
  { rewrite HC, HP. destruct (color data0); reflexivity. }
  destruct mergedGeometry as [m |].
  - destruct Halloc as [gm Hm].
    rewrite (voxel_merge this d p0 data0 gs ms Hdata m gm Hm).
    destruct (merge_values gm (voxel_world this d p0 (color data0))) as [merged |].
    + eexists _, _, _. split; [reflexivity |].
      split; [| split; [exact HP | exact Hgeo]].
      cbn [geometries]. apply list_lookup_middle. reflexivity.
    + eexists _, _, _. split; [reflexivity |].
      split; [| split; [exact HP | exact Hgeo]].
      cbn [geometries]. apply lookup_last.
  - rewrite (voxel_first this d p0 data0 gs ms Hdata).
    eexists _, _, _. split; [reflexivity |].
    split; [| split; [exact HP | exact Hgeo]].
    cbn [geometries]. apply lookup_last.
Qed.

(** C4.  For every leaf that passes the guard and whose first attribute
    record is [data0], the loop body returns and leaves the leaf's box
    object (the geometry allocated for this leaf) with 24 vertices and:
    when [data0] has a colour (r, g, b), a colour attribute that holds
    (r/255, g/255, b/255) for every vertex; when [data0] has no colour, no
    colour attribute. *)
Theorem leaf_color_attribute this mergedGeometry leaf data0 h :
  has_points leaf = true ->
  first_record leaf = Some data0 ->
  allocated h mergedGeometry ->
  exists merged h' geo,
    visit_leaf this mergedGeometry leaf h = Returns merged h' /\
    geometries h' !! length (geometries h) = Some geo /\
    length (position geo) = 24%nat /\
    attr_color geo =
      match color data0 with
      | Some c =>
          Some (replicate (length (position geo))
                          (mkVector3 (r c / 255) (g c / 255) (b c / 255)))
      | None => None
      end.
Proof.
  unfold has_points, first_record, visit_leaf.
  destruct (leaf_data leaf) as [d |]; [| discriminate].
  destruct (points d) as [| p0 rest]; [discriminate |].
  intros _ Hdata Halloc. exact (voxel_color this _ d p0 data0 h Hdata Halloc).
Qed.

(** C4, witness: the red leaf as first voxel, and the uncoloured leaf
    after it. *)
Lemma leaf_color_attribute_witness :
  (exists merged h' geo,
     visit_leaf loader0 None leaf_red heap0 = Returns merged h' /\
     geometries h' !! 0%nat = Some geo /\
     length (position geo) = 24%nat /\
     attr_color geo =
       Some (replicate (length (position geo))
                       (mkVector3 (255 / 255) (0 / 255) (0 / 255)))) /\
  (exists merged h' geo,
     visit_leaf loader0 (Some 0%nat) leaf_plain
       (mkHeap [BoxGeometry_value 1 1 1] [white]) = Returns merged h' /\
     geometries h' !! 1%nat = Some geo /\
     length (position geo) = 24%nat /\
     attr_color geo = None).
Proof.
  split.
  - exact (leaf_color_attribute loader0 None leaf_red (mkAttr (Some red)) heap0
             eq_refl eq_refl I).
  - exact (leaf_color_attribute loader0 (Some 0%nat) leaf_plain (mkAttr None)
             (mkHeap [BoxGeometry_value 1 1 1] [white])
             eq_refl eq_refl (ex_intro _ _ eq_refl)).
Defined.

(** C5, as amended.  For every leaf with at least one point and every voxel
    size [v], each box dimension is at least [round2 v], the voxel size
    rounded to two decimals. *)
Theorem box_dimensions_lower_bound (voxelSize : option Q) (p0 : Vector3)
    (rest : list Vector3) :
  let s := scan_points p0 (p0 :: rest) in
  let v := ToNumber voxelSize in
  round2 v <= box_width voxelSize s /\
  round2 v <= box_height voxelSize s /\
  round2 v <= box_depth voxelSize s.
Proof.
  intros s v.
  destruct (scan_extent_nonneg p0 rest) as (Hx & Hy & Hz). fold s in Hx, Hy, Hz.
  unfold box_width, box_height, box_depth. fold v.
  split; [| split]; apply round2_le; lra.
Qed.

(** C5, counterexample: the voxel size 0.004 is positive, and the box of a
    leaf with one point has width 0. *)
Lemma box_width_below_voxelSize :
  0 < 1 # 250 /\
  box_width (Some (1 # 250)) (scan_points (mkVector3 0 0 0) [mkVector3 0 0 0])
  < 1 # 250.
Proof. split; reflexivity. Qed.

(** C6, as amended.  For a leaf with exactly one point, width, height and
    depth all equal [round2 v], the voxel size [v] rounded to two
    decimals. *)
Theorem single_point_box (voxelSize : option Q) (p : Vector3) :
  let s := scan_points p [p] in
  let v := ToNumber voxelSize in
  box_width voxelSize s == round2 v /\
  box_height voxelSize s == round2 v /\
  box_depth voxelSize s == round2 v.
Proof.
  intros s v.
  unfold box_width, box_height, box_depth, s, scan_points. fold v.
  cbn [fold_left scan_point s_min s_max x y z]. unfold Math_min, Math_max.
  split; [| split]; apply round2_comp; rewrite Q.max_id, Q.min_id; ring.
Qed.

(** C6, counterexample: with voxel size 0.004 the width of the box of a
    one-point leaf is 0, not 0.004. *)
Lemma single_point_width_not_voxelSize :
  ~ box_width (Some (1 # 250))
      (scan_points (mkVector3 0 0 0) [mkVector3 0 0 0]) == 1 # 250.
Proof. intros H. discriminate H. Qed.

(** C7.  The claim asks that a leaf with points and no attribute record be
    handled without failure.  On an octree whose first leaf has at least
    one point and no attribute record, [generateMesh] throws a [TypeError]:
    [data] is [undefined] and [data.color] reads a property of it. *)
Theorem generateMesh_no_record_TypeError this p0 pts rest h :
  generateMesh this (mkLeaf (Some (mkPointData (p0 :: pts) [])) :: rest) h
  = Throws TypeError.
Proof.
  unfold generateMesh. cbn [visit_leaves]. unfold bind at 1 2, visit_leaf.
  cbn [leaf_data points].
  rewrite voxel_no_record by reflexivity. reflexivity.
Qed.

(** C8.  Translating a geometry by (tx, ty, tz) and then by the negated
    vector returns every vertex to its position, leaves the index and the
    colours as they were, and touches no other object. *)
Theorem translate_roundtrip (h : Heap) (p : ref) (geo : BufferGeometry)
    (tx ty tz : Q) :
  geometries h !! p = Some geo ->
  exists h' geo',
    (translate p tx ty tz ;;; translate p (- tx) (- ty) (- tz)) h
    = Returns tt h' /\
    geometries h' !! p = Some geo' /\
    Forall2 veq (position geo') (position geo) /\
    index geo' = index geo /\
    attr_color geo' = attr_color geo /\
    (forall q, q <> p -> geometries h' !! q = geometries h !! q) /\
    materials h' = materials h.
Proof.
  destruct h as [gs ms]. cbn [geometries materials]. intros Hp.
  assert (Hlt : (p < length gs)%nat) by (eapply lookup_lt_Some, Hp).
  eexists _, _. split; [| split].
  - unfold bind. rewrite (translate_returns gs ms p geo) by exact Hp.
    rewrite (translate_returns _ ms p (translate_value tx ty tz geo))
      by (apply list_lookup_insert_eq, Hlt).
    rewrite list_insert_insert_eq. reflexivity.
  - cbn [geometries]. apply list_lookup_insert_eq, Hlt.
  - destruct (translate_value_roundtrip tx ty tz geo) as (P & I & C).
    repeat split; try assumption.
    intros q Hq. cbn [geometries]. apply list_lookup_insert_ne. congruence.
Qed.

(** C8, witness: the unit box moved by (5, 0, 0) and back. *)
Lemma translate_roundtrip_witness :
  exists h' geo',
    (translate 0%nat 5 0 0 ;;; translate 0%nat (- 5) (- 0) (- 0))
      (mkHeap [BoxGeometry_value 1 1 1] []) = Returns tt h' /\
    geometries h' !! 0%nat = Some geo' /\
    Forall2 veq (position geo') (position (BoxGeometry_value 1 1 1)).
Proof.
  destruct (translate_roundtrip (mkHeap [BoxGeometry_value 1 1 1] []) 0%nat
              (BoxGeometry_value 1 1 1) 5 0 0 eq_refl)
    as (h' & geo' & E & L & P & _).
  exists h', geo'. repeat split; assumption.
Defined.

(** C9, as amended.  [setVoxelSize] validates nothing: for every number
    [v], positive or not, it returns normally, stores [v] as the voxel size
    and changes nothing else.  [generateMesh] then sizes its boxes from the
    stored [v]: for leaf data [d] with points and a first attribute record,
    the mesh of the octree of that one leaf is the box of width, height and
    depth [Math.round((v + (max - min)) * 100) / 100], painted, moved to
    the centre and back; and wherever such a leaf is met in the loop, the
    box object allocated for it is that same box. *)
Theorem setVoxelSize_then_generateMesh (v : Q) (this : VoxelLoader) (h : Heap)
    (d : PointData) (p0 : Vector3) (rest : list Vector3) (data0 : AttrRecord) :
  points d = p0 :: rest ->
  data d !! 0%nat = Some data0 ->
  let s := scan_points p0 (points d) in
  let pos := centroid s in
  let box :=
    translate_value (- x pos) (- y pos) (- z pos)
      (translate_value (x pos) (y pos) (z pos)
         (painted (color data0)
            (BoxGeometry_value
               (Math_round ((v + (x (s_max s) - x (s_min s))) * 100) / 100)
               (Math_round ((v + (y (s_max s) - y (s_min s))) * 100) / 100)
               (Math_round ((v + (z (s_max s) - z (s_min s))) * 100) / 100)))) in
  exists this',
    setVoxelSize (Some v) this h = Returns this' h /\
    this_voxelSize this' = Some v /\
    this_material this' = this_material this /\
    (exists mesh h',
       generateMesh this' [mkLeaf (Some d)] h = Returns mesh h' /\
       geometries h' !! geometry mesh = Some box) /\
    (forall mergedGeometry h0,
       allocated h0 mergedGeometry ->
       exists merged h1,
         visit_leaf this' mergedGeometry (mkLeaf (Some d)) h0 = Returns merged h1 /\
         geometries h1 !! length (geometries h0) = Some box).
Proof.
  intros Hpts Hdata s pos box.
  set (this' := mkLoader (this_material this) (Some v)).
  assert (Ebox : box = voxel_local this' d p0 (color data0)) by reflexivity.
  exists this'. split; [reflexivity |]. split; [reflexivity |].
  split; [reflexivity |]. split.
  - destruct h as [gs ms].
    exists (mkMesh (length gs) (this_material this')),
           (mkHeap (gs ++ [voxel_local this' d p0 (color data0)]) ms).
    split; [exact (generateMesh_single_leaf this' d p0 rest data0 gs ms Hpts Hdata) |].
    rewrite Ebox. cbn [geometry geometries]. apply lookup_last.
  - intros mergedGeometry [gs ms] Halloc. unfold visit_leaf. cbn [leaf_data].
    rewrite Hpts, Ebox. cbn [geometries] in *.
    destruct mergedGeometry as [m |].
    + destruct Halloc as [gm Hm].
      rewrite (voxel_merge this' d p0 data0 gs ms Hdata m gm Hm).
      destruct (merge_values gm (voxel_world this' d p0 (color data0))) as [mg |].
      * eexists _, _. split; [reflexivity |].
        cbn [geometries]. apply list_lookup_middle. reflexivity.
      * eexists _, _. split; [reflexivity |].
        cbn [geometries]. apply lookup_last.
    + rewrite (voxel_first this' d p0 data0 gs ms Hdata).
      eexists _, _. split; [reflexivity |].
      cbn [geometries]. apply lookup_last.
Qed.

(** C9, witness: voxel size -1 and the data of the red leaf; the mesh is
    the box of width, height and depth -1. *)
Lemma setVoxelSize_then_generateMesh_witness :
  exists this' mesh h' geo,
    setVoxelSize (Some (- 1)) loader0 heap0 = Returns this' heap0 /\
    this_voxelSize this' = Some (- 1) /\
    generateMesh this' [leaf_red] heap0 = Returns mesh h' /\
    geometries h' !! geometry mesh = Some geo /\
    Forall2 veq (position geo) (position (BoxGeometry_value (- 1) (- 1) (- 1))).
Proof.
  destruct (setVoxelSize_then_generateMesh (- 1) loader0 heap0
              (mkPointData [mkVector3 5 0 0] [mkAttr (Some red)])
              (mkVector3 5 0 0) [] (mkAttr (Some red)) eq_refl eq_refl)
    as (this' & E & Hv & _ & (mesh & h' & Eg & Hl) & _).
  eexists this', mesh, h', _. split; [exact E |]. split; [exact Hv |].
  split; [exact Eg |]. split; [exact Hl |].
  vm_compute. repeat constructor.
Defined.

(** C9, counterexample: [setVoxelSize(-1)] does not throw an
    [InvalidConfigurationError]; it returns, the voxel size is then -1, and
    [generateMesh] builds the box of [leaf_red] with width, height and
    depth -1. *)
Lemma setVoxelSize_accepts_negative :
  - 1 <= 0 /\
  setVoxelSize (Some (- 1)) loader0 heap0 <> Throws "InvalidConfigurationError" /\
  exists this,
    setVoxelSize (Some (- 1)) loader0 heap0 = Returns this heap0 /\
    this_voxelSize this = Some (- 1) /\
    exists mesh h geo,
      generateMesh this [leaf_red] heap0 = Returns mesh h /\
      geometries h !! geometry mesh = Some geo /\
      Forall2 veq (position geo)
                  (position (BoxGeometry_value (- 1) (- 1) (- 1))).
Proof.
  split; [discriminate |]. split; [discriminate |].
  eexists. split; [reflexivity |]. split; [reflexivity |].
  eexists _, _, _. split; [vm_compute; reflexivity |].
  split; [reflexivity |]. vm_compute. repeat constructor.
Qed.

(** [setVoxelMaterial(material)] with an argument: the default material is
    allocated all the same, and the write goes to the caller's object. *)
Lemma setVoxelMaterial_returns (m : ref) (mat : Material) (this : VoxelLoader)
    (gs : list BufferGeometry) (ms : list Material) :
  ms !! m = Some mat ->
  setVoxelMaterial (Some m) this (mkHeap gs ms)
  = Returns (mkLoader (Some m) (this_voxelSize this))
      (mkHeap gs (<[m := mkMaterial (m_color mat) VertexColors]>
                    (ms ++ [mkMaterial 0xffffff NoColors]))).
Proof.
  intros Hm. unfold setVoxelMaterial.
  unfold bind at 1, alloc_material. cbn [geometries materials].
  unfold bind at 1, read_material. cbn [geometries materials].
  rewrite (lookup_app_l_Some _ _ _ _ Hm).
  unfold bind at 1, write_material. cbn [geometries materials].
  rewrite (lookup_app_l_Some _ _ _ _ Hm). reflexivity.
Qed.

(** C10.  [setVoxelMaterial(m)] on a caller's material object [m] returns
    with that very object changed in place (its [vertexColors] is now
    [VertexColors], its other field as before), every other material and
    every geometry of the heap as before, and the reference [m] stored in
    the loader; a mesh that [generateMesh] returns afterwards holds the
    same reference [m], and [generateMesh] leaves the object as it was. *)
Theorem setVoxelMaterial_shares (m : ref) (mat : Material) (this : VoxelLoader)
    (h : Heap) (octree : Octree) :
  materials h !! m = Some mat ->
  exists this' h1,
    setVoxelMaterial (Some m) this h = Returns this' h1 /\
    this_material this' = Some m /\
    materials h1 !! m = Some (mkMaterial (m_color mat) VertexColors) /\
    (forall q other, q <> m -> materials h !! q = Some other ->
                     materials h1 !! q = Some other) /\
    geometries h1 = geometries h /\
    (forall mesh h2,
       generateMesh this' octree h1 = Returns mesh h2 ->
       material mesh = Some m /\
       materials h2 !! m = Some (mkMaterial (m_color mat) VertexColors)).
Proof.
  destruct h as [gs ms]. cbn [geometries materials]. intros Hm.
  assert (Hlt : (m < length ms)%nat) by (eapply lookup_lt_Some, Hm).
  eexists _, _. split; [apply (setVoxelMaterial_returns m mat), Hm |].
  cbn [this_material geometries materials].
  assert (Hnew : <[m := mkMaterial (m_color mat) VertexColors]>
                   (ms ++ [mkMaterial 0xffffff NoColors]) !! m
                 = Some (mkMaterial (m_color mat) VertexColors)).
  { apply list_lookup_insert_eq. rewrite length_app. lia. }
  split; [reflexivity |]. split; [exact Hnew |]. split; [| split].
  - intros q other Hq Hother.
    rewrite list_lookup_insert_ne by congruence.
    apply lookup_app_l_Some, Hother.
  - reflexivity.
  - intros mesh h2 Hgen. apply generateMesh_material in Hgen.
    destruct Hgen as [Hmat Hkeep]. split; [exact Hmat |].
    rewrite Hkeep. exact Hnew.
Qed.

(** C10, witness: a caller's blue material at reference 1, then the mesh
    of [leaf_red]. *)
Lemma setVoxelMaterial_shares_witness :
  exists this' h1 mesh h2,
    setVoxelMaterial (Some 1%nat) loader0 (mkHeap [] [white; blue])
    = Returns this' h1 /\
    materials h1 !! 1%nat = Some (mkMaterial 0x0000ff VertexColors) /\
    generateMesh this' [leaf_red] h1 = Returns mesh h2 /\
    material mesh = Some 1%nat /\
    materials h2 !! 1%nat = Some (mkMaterial 0x0000ff VertexColors).
Proof.
  destruct (setVoxelMaterial_shares 1%nat blue loader0
              (mkHeap [] [white; blue]) [leaf_red] eq_refl)
    as (this' & h1 & E & Hthis & Hm & _ & _ & Hgen).
  exists this', h1.
  injection E as <- <-.
  pose proof (generateMesh_single_leaf (mkLoader (Some 1%nat) (Some 1))
                (mkPointData [mkVector3 5 0 0] [mkAttr (Some red)])
                (mkVector3 5 0 0) [] (mkAttr (Some red)) []
                [white; mkMaterial 0x0000ff VertexColors;
                 mkMaterial 0xffffff NoColors] eq_refl eq_refl) as Erun.
  eexists _, _. split; [reflexivity |]. split; [exact Hm |].
  split; [exact Erun |]. exact (Hgen _ _ Erun).
Defined.
(** * Further properties *)

(** ** Leaves that the loop skips, records that it does not read *)

Section Skipping.

Variable this : VoxelLoader.

Lemma visit_leaf_no_points merged leaf h :
  has_points leaf = false -> visit_leaf this merged leaf h = Returns merged h.
Proof.
  unfold has_points, visit_leaf. destruct (leaf_data leaf) as [d |]; [| reflexivity].
  destruct (points d); [reflexivity | discriminate].
Qed.

Lemma visit_leaves_filter octree :
  forall merged h,
    visit_leaves this merged (List.filter has_points octree) h
    = visit_leaves this merged octree h.
Proof.
  induction octree as [| leaf rest IH]; intros merged h; [reflexivity |].
  cbn [List.filter visit_leaves]. destruct (has_points leaf) eqn:Hleaf.
  - cbn [visit_leaves]. unfold bind.
    destruct (visit_leaf this merged leaf h); try reflexivity. apply IH.
  - unfold bind. rewrite (visit_leaf_no_points merged leaf h Hleaf). apply IH.
Qed.

Lemma voxel_depends merged d d' p0 h :
  points d' = points d -> data d' !! 0%nat = data d !! 0%nat ->
  voxel this merged d' p0 h = voxel this merged d p0 h.
Proof.
  intros Hp Hd. unfold voxel. rewrite Hp, Hd. reflexivity.
Qed.

Lemma visit_leaf_first_record_only merged leaf h :
  visit_leaf this merged (first_record_only leaf) h
  = visit_leaf this merged leaf h.
Proof.
  unfold first_record_only, visit_leaf.
  destruct (leaf_data leaf) as [d |] eqn:Hd; cbn [leaf_data]; [| rewrite Hd; reflexivity].
  cbn [points]. destruct (points d) as [| p0 rest] eqn:Hp; [reflexivity |].
  apply voxel_depends; cbn [points data]; [symmetry; exact Hp |].
  destruct (data d); reflexivity.
Qed.

End Skipping.

(** X1.  Leaves without points do not matter: [generateMesh] behaves on an
    octree exactly as on the octree with these leaves removed. *)
Theorem generateMesh_filter this octree h :
  generateMesh this (List.filter has_points octree) h = generateMesh this octree h.
Proof.
  unfold generateMesh, bind. rewrite visit_leaves_filter. reflexivity.
Qed.

(** X2.  Of the attribute records of a leaf only the first is read:
    [generateMesh] behaves on an octree exactly as on the octree whose
    leaves keep only their first record. *)
Theorem generateMesh_first_record_only this octree h :
  generateMesh this (map first_record_only octree) h = generateMesh this octree h.
Proof.
  unfold generateMesh, bind.
  assert (E : forall merged h0,
             visit_leaves this merged (map first_record_only octree) h0
             = visit_leaves this merged octree h0).
  { induction octree as [| leaf rest IH]; intros merged h0; [reflexivity |].
    cbn [map visit_leaves]. unfold bind.
    rewrite visit_leaf_first_record_only.
    destruct (visit_leaf this merged leaf h0); try reflexivity. apply IH. }
  rewrite E. reflexivity.
Qed.

(** ** The loop on geometry values *)

Section Values.

Variable this : VoxelLoader.

Lemma visit_leaf_value merged acc leaf gs ms :
  names gs merged acc ->
  match merged_step this acc leaf with
  | None => visit_leaf this merged leaf (mkHeap gs ms) = Throws TypeError
  | Some acc' =>
      exists merged' gs',
        visit_leaf this merged leaf (mkHeap gs ms) = Returns merged' (mkHeap gs' ms) /\
        names gs' merged' acc'
  end.
Proof.
  intros Hn. unfold merged_step, visit_leaf.
  destruct (leaf_data leaf) as [d |]; [| exists merged, gs; split; [reflexivity | exact Hn]].
  destruct (points d) as [| p0 rest];
    [exists merged, gs; split; [reflexivity | exact Hn] |].
  destruct (data d !! 0%nat) as [data0 |] eqn:Hdata;
    [| apply voxel_no_record, Hdata].
  destruct merged as [m |], acc as [gm |]; cbn [names] in Hn; try contradiction.
  - rewrite (voxel_merge this d p0 data0 gs ms Hdata m gm Hn).
    destruct (merge_values gm (voxel_world this d p0 (color data0))) as [mg |].
    + eexists _, _. split; [reflexivity |]. cbn [names].
      change (gs ++ [voxel_local this d p0 (color data0); mg])
        with (gs ++ [voxel_local this d p0 (color data0)] ++ [mg]).
      rewrite app_assoc.
      replace (S (length gs))
        with (length (gs ++ [voxel_local this d p0 (color data0)]))
        by (rewrite length_app; cbn; lia).
      apply lookup_last.
    + eexists _, _. split; [reflexivity | exact I].
  - rewrite (voxel_first this d p0 data0 gs ms Hdata).
    eexists _, _. split; [reflexivity |]. cbn [names]. apply lookup_last.
Qed.

Lemma visit_leaves_value octree : forall merged acc gs ms,
  names gs merged acc ->
  match merged_steps this acc octree with
  | None => visit_leaves this merged octree (mkHeap gs ms) = Throws TypeError
  | Some acc' =>
      exists merged' gs',
        visit_leaves this merged octree (mkHeap gs ms)
        = Returns merged' (mkHeap gs' ms) /\
        names gs' merged' acc'
  end.
Proof.
  induction octree as [| leaf rest IH]; intros merged acc gs ms Hn.
  - exists merged, gs. split; [reflexivity | exact Hn].
  - cbn [merged_steps visit_leaves]. unfold bind.
    pose proof (visit_leaf_value merged acc leaf gs ms Hn) as Hleaf.
    destruct (merged_step this acc leaf) as [acc1 |].
    + destruct Hleaf as (merged1 & gs1 & -> & Hn1). apply IH, Hn1.
    + rewrite Hleaf. reflexivity.
Qed.

End Values.

Section ValueFacts.

Variable this : VoxelLoader.

Lemma has_color_world d p0 data0 :
  has_color (voxel_world this d p0 (color data0)) = colored data0.
Proof. unfold has_color, colored. destruct (color data0); reflexivity. Qed.

Lemma attr_color_world d p0 rgb :
  attr_color (voxel_world this d p0 rgb)
  = option_map (fun c => replicate 24 (normalized c)) rgb.
Proof. destruct rgb; reflexivity. Qed.

Lemma merged_steps_app octree1 : forall octree2 acc,
  merged_steps this acc (octree1 ++ octree2)
  = match merged_steps this acc octree1 with
    | Some acc1 => merged_steps this acc1 octree2
    | None => None
    end.
Proof.
  induction octree1 as [| leaf rest IH]; intros octree2 acc; [reflexivity |].
  cbn [app merged_steps]. destruct (merged_step this acc leaf); [apply IH | reflexivity].
Qed.

Lemma merged_steps_skip octree : forall acc,
  Forall (fun leaf => has_points leaf = false) octree ->
  merged_steps this acc octree = Some acc.
Proof.
  induction octree as [| leaf rest IH]; intros acc Hall; [reflexivity |].
  inversion Hall as [| ? ? Hleaf Hrest]; subst. cbn [merged_steps].
  unfold merged_step. unfold has_points in Hleaf.
  destruct (leaf_data leaf) as [d |]; [| apply IH, Hrest].
  destruct (points d); [apply IH, Hrest | discriminate Hleaf].
Qed.

Lemma merged_step_skip acc leaf :
  has_points leaf = false ->
  merged_step this acc leaf = Some acc /\ leaf_record leaf = None.
Proof.
  unfold has_points, merged_step, leaf_record.
  destruct (leaf_data leaf) as [d |]; [| split; reflexivity].
  destruct (points d); [split; reflexivity | discriminate].
Qed.

Lemma merged_step_record acc leaf d p0 data0 :
  leaf_record leaf = Some (d, p0, data0) ->
  merged_step this acc leaf
  = Some (match acc with
          | None => Some (voxel_local this d p0 (color data0))
          | Some gm => merge_values gm (voxel_world this d p0 (color data0))
          end).
Proof.
  unfold leaf_record, merged_step.
  destruct (leaf_data leaf) as [d' |]; [| discriminate].
  destruct (points d') as [| p0' pts]; [discriminate |].
  destruct (data d' !! 0%nat) as [data0' |]; [| discriminate].
  intros E. injection E as -> -> ->. reflexivity.
Qed.

Lemma agrees_cases flag leaf :
  agrees flag leaf ->
  has_points leaf = false \/
  exists d p0 data0, leaf_record leaf = Some (d, p0, data0) /\ colored data0 = flag.
Proof.
  unfold agrees, has_points, first_record, leaf_record.
  destruct (leaf_data leaf) as [d |]; [| left; reflexivity].
  destruct (points d) as [| p0 pts]; [left; reflexivity |].
  intros H. destruct (H eq_refl) as (data0 & -> & Hflag).
  right. exists d, p0, data0. split; [reflexivity | exact Hflag].
Qed.

Lemma merge_world gm d p0 data0 :
  has_color gm = colored data0 ->
  exists mg,
    merge_values gm (voxel_world this d p0 (color data0)) = Some mg /\
    position mg = position gm ++ position (voxel_world this d p0 (color data0)) /\
    attr_color mg
    = option_map (fun c => c ++ match color data0 with
                                | Some c0 => replicate 24 (normalized c0)
                                | None => []
                                end) (attr_color gm) /\
    has_color mg = has_color gm.
Proof.
  unfold merge_values, has_color, colored. rewrite attr_color_world.
  destruct (attr_color gm) as [c1 |], (color data0) as [c |];
    try discriminate; intros _; eexists; split; try reflexivity;
    repeat split.
Qed.

Lemma merge_mismatch gm d p0 data0 :
  has_color gm <> colored data0 ->
  merge_values gm (voxel_world this d p0 (color data0)) = None.
Proof.
  unfold merge_values, has_color, colored. rewrite attr_color_world.
  destruct (attr_color gm) as [c1 |], (color data0) as [c |];
    try reflexivity; intros H; contradiction H; reflexivity.
Qed.

(** Later voxels, all with or all without colour: their boxes are appended
    at their centroids. *)
Lemma merged_steps_later flag octree :
  Forall (agrees flag) octree ->
  forall gm, has_color gm = flag ->
  exists geo,
    merged_steps this (Some gm) octree = Some (Some geo) /\
    position geo = position gm ++ world_positions this octree /\
    attr_color geo = option_map (fun c => c ++ mesh_colors octree) (attr_color gm) /\
    has_color geo = flag.
Proof.
  induction 1 as [| leaf rest Hleaf _ IH]; intros gm Hgm.
  - exists gm. cbn [merged_steps world_positions mesh_colors].
    rewrite app_nil_r. repeat split; [| exact Hgm].
    destruct (attr_color gm); cbn [option_map]; [rewrite app_nil_r |]; reflexivity.
  - cbn [merged_steps world_positions mesh_colors].
    unfold leaf_world_positions, leaf_colors.
    destruct (agrees_cases flag leaf Hleaf) as [Hskip | (d & p0 & data0 & Hrec & Hflag)].
    + destruct (merged_step_skip (Some gm) leaf Hskip) as [-> ->].
      apply IH, Hgm.
    + rewrite (merged_step_record _ _ _ _ _ Hrec), Hrec.
      destruct (merge_world gm d p0 data0) as (mg & -> & P & C & F);
        [congruence |].
      destruct (IH mg) as (geo & E & P' & C' & F'); [congruence |].
      exists geo. split; [exact E |].
      split; [rewrite P', P, app_assoc; reflexivity |].
      split; [| exact F'].
      rewrite C', C. destruct (attr_color gm); cbn [option_map];
        [rewrite app_assoc |]; reflexivity.
Qed.

(** From the start of the loop. *)
Lemma merged_steps_uniform flag octree :
  Forall (agrees flag) octree ->
  (1 <= non_empty_leaves octree)%nat ->
  exists geo,
    merged_steps this None octree = Some (Some geo) /\
    position geo = mesh_positions this octree /\
    attr_color geo = (if flag then Some (mesh_colors octree) else None) /\
    has_color geo = flag.
Proof.
  induction 1 as [| leaf rest Hleaf Hrest IH]; intros HK.
  - cbn in HK. lia.
  - unfold non_empty_leaves in HK. cbn [List.filter] in HK.
    cbn [merged_steps mesh_positions mesh_colors]. unfold leaf_colors.
    destruct (agrees_cases flag leaf Hleaf) as [Hskip | (d & p0 & data0 & Hrec & Hflag)].
    + rewrite Hskip in HK.
      destruct (merged_step_skip None leaf Hskip) as [-> ->].
      destruct (IH HK) as (geo & E & P & C & F).
      exists geo. repeat split; assumption.
    + rewrite (merged_step_record _ _ _ _ _ Hrec), Hrec.
      destruct (voxel_local_color this d p0 (color data0)) as [_ HC].
      destruct (merged_steps_later flag rest Hrest
                  (voxel_local this d p0 (color data0))) as (geo & E & P & C & F).
      { rewrite <- Hflag. unfold has_color, colored. rewrite HC.
        destruct (color data0); reflexivity. }
      exists geo. split; [exact E |]. split; [exact P |]. split; [| exact F].
      rewrite C, HC. unfold colored in Hflag.
      destruct (color data0) as [c |]; subst flag; reflexivity.
Qed.

Lemma well_formed_box d p0 rgb :
  well_formed (voxel_world this d p0 rgb) /\
  well_formed (voxel_local this d p0 rgb).
Proof.
  assert (Hidx : Forall (fun j => (j < 24)%nat) (index (BoxGeometry_value 0 0 0)))
    by (repeat constructor).
  split.
  - split; [| split].
    + unfold voxel_world. cbn [translate_value position index].
      rewrite length_map. destruct rgb; exact Hidx.
    + exists 1%nat. split; [lia |]. destruct rgb; split; reflexivity.
    + intros cols. rewrite attr_color_world. destruct rgb; [| discriminate].
      intros E. injection E as <-. reflexivity.
  - split; [| split].
    + unfold voxel_local, voxel_world. cbn [translate_value position index].
      rewrite !length_map. destruct rgb; exact Hidx.
    + exists 1%nat. split; [lia |]. destruct rgb; split; reflexivity.
    + intros cols. destruct (voxel_local_color this d p0 rgb) as [HP HC].
      rewrite HC, HP. destruct rgb; [| discriminate].
      intros E. injection E as <-. reflexivity.
Qed.

Lemma well_formed_merge g1 g2 mg :
  well_formed g1 -> well_formed g2 -> merge_values g1 g2 = Some mg ->
  well_formed mg.
Proof.
  intros (I1 & (k1 & K1 & P1 & X1) & C1) (I2 & (k2 & K2 & P2 & X2) & C2) E.
  assert (Hidx : Forall (fun j => (j < length (position g1 ++ position g2))%nat)
                   (index g1 ++ map (fun j => (j + length (position g1))%nat) (index g2))).
  { rewrite length_app. apply Forall_app. split.
    - eapply Forall_impl; [exact I1 |]. cbn. intros; lia.
    - apply List.Forall_map. eapply Forall_impl; [exact I2 |]. cbn. intros; lia. }
  assert (Hk : exists k, (1 <= k)%nat /\
                 length (position g1 ++ position g2) = (24 * k)%nat /\
                 length (index g1 ++ map (fun j => (j + length (position g1))%nat)
                                         (index g2)) = (36 * k)%nat).
  { exists (k1 + k2)%nat. rewrite !length_app, length_map. lia. }
  unfold merge_values in E.
  destruct (attr_color g1) as [c1 |], (attr_color g2) as [c2 |];
    try discriminate E; injection E as <-; split; try split; try assumption.
  - intros cols Hc. injection Hc as <-. cbn [position]. rewrite !length_app.
    rewrite (C1 c1 eq_refl), (C2 c2 eq_refl). reflexivity.
  - intros cols Hc. discriminate Hc.
Qed.

Lemma merged_steps_well_formed octree : forall acc geo,
  match acc with Some gm => well_formed gm | None => True end ->
  merged_steps this acc octree = Some (Some geo) ->
  well_formed geo.
Proof.
  induction octree as [| leaf rest IH]; intros acc geo Hacc E.
  - injection E as ->. exact Hacc.
  - cbn [merged_steps] in E.
    destruct (merged_step this acc leaf) as [acc1 |] eqn:Es; [| discriminate E].
    apply (IH acc1 geo); [| exact E].
    unfold merged_step in Es.
    destruct (leaf_data leaf) as [d |]; [| injection Es as <-; exact Hacc].
    destruct (points d) as [| p0 pts]; [injection Es as <-; exact Hacc |].
    destruct (data d !! 0%nat) as [data0 |]; [| discriminate Es].
    injection Es as <-.
    destruct acc as [gm |]; [| apply well_formed_box].
    destruct (merge_values gm (voxel_world this d p0 (color data0))) as [mg |] eqn:Em;
      [| exact I].
    exact (well_formed_merge _ _ _ Hacc (proj1 (well_formed_box d p0 _)) Em).
Qed.

(** A returning [generateMesh] returns the value of the loop on values. *)
Lemma generateMesh_returns_value octree h mesh h' :
  generateMesh this octree h = Returns mesh h' ->
  exists geo,
    merged_steps this None octree = Some (Some geo) /\
    geometries h' !! geometry mesh = Some geo.
Proof.
  destruct h as [gs ms]. unfold generateMesh, bind. intros E.
  pose proof (visit_leaves_value this octree None None gs ms I) as Hv.
  destruct (merged_steps this None octree) as [[geo |] |].
  - destruct Hv as ([m |] & gs' & Ev & Hn); cbn [names] in Hn; [| contradiction].
    rewrite Ev in E.
    unfold computeFaceNormals, computeVertexNormals, bind, read_geometry, ret in E.
    cbn [geometries] in E. rewrite Hn in E. cbn [geometries] in E. rewrite Hn in E.
    injection E as <- <-. exists geo. split; [reflexivity | exact Hn].
  - destruct Hv as ([m |] & gs' & Ev & Hn); cbn [names] in Hn; [contradiction |].
    rewrite Ev in E. discriminate E.
  - rewrite Hv in E. discriminate E.
Qed.

(** The converse: when the loop on values ends with a geometry, the call
    returns a mesh of it. *)
Lemma generateMesh_of_value octree h geo :
  merged_steps this None octree = Some (Some geo) ->
  exists mesh h',
    generateMesh this octree h = Returns mesh h' /\
    geometries h' !! geometry mesh = Some geo.
Proof.
  destruct h as [gs ms]. unfold generateMesh, bind. intros Es.
  pose proof (visit_leaves_value this octree None None gs ms I) as Hv.
  rewrite Es in Hv.
  destruct Hv as ([m |] & gs' & -> & Hn); cbn [names] in Hn; [| contradiction].
  exists (mkMesh m (this_material this)), (mkHeap gs' ms).
  unfold computeFaceNormals, computeVertexNormals, bind, read_geometry, ret.
  cbn [geometries]. rewrite Hn. cbn [geometries]. rewrite Hn.
  split; [reflexivity | exact Hn].
Qed.

End ValueFacts.

(** X3.  [generateMesh] computes what the loop on geometry values computes:
    when that loop ends with a geometry, the call returns a mesh of that
    geometry and of the loader's material; in every other case (a leaf with
    points and no attribute record, no geometry at the end) the call throws
    a [TypeError].  It fails in no other way, whatever the heap. *)
Theorem generateMesh_value this octree h :
  match merged_steps this None octree with
  | Some (Some geo) =>
      exists mesh h',
        generateMesh this octree h = Returns mesh h' /\
        geometries h' !! geometry mesh = Some geo /\
        material mesh = this_material this
  | _ => generateMesh this octree h = Throws TypeError
  end.
Proof.
  destruct h as [gs ms]. unfold generateMesh, bind.
  pose proof (visit_leaves_value this octree None None gs ms I) as Hv.
  destruct (merged_steps this None octree) as [[geo |] |].
  - destruct Hv as ([m |] & gs' & -> & Hn); cbn [names] in Hn; [| contradiction].
    exists (mkMesh m (this_material this)), (mkHeap gs' ms).
    unfold computeFaceNormals, computeVertexNormals, bind, read_geometry, ret.
    cbn [geometries]. rewrite Hn. cbn [geometries]. rewrite Hn.
    repeat split. exact Hn.
  - destruct Hv as ([m |] & gs' & -> & Hn); cbn [names] in Hn; [contradiction |].
    reflexivity.
  - rewrite Hv. reflexivity.
Qed.

(** X4.  When every leaf that passes the guard has a first attribute record
    and these records all have a colour or all lack one, the vertices of
    the mesh are the boxes of the processed leaves in traversal order: the
    box of the first of them in local space (closing translation applied),
    the box of every later one at its centroid; the colour attribute lists
    the leaves' normalised colours, 24 entries each, or is absent. *)
Theorem generateMesh_geometry this octree h flag :
  Forall (agrees flag) octree ->
  (1 <= non_empty_leaves octree)%nat ->
  exists mesh h' geo,
    generateMesh this octree h = Returns mesh h' /\
    geometries h' !! geometry mesh = Some geo /\
    position geo = mesh_positions this octree /\
    attr_color geo = (if flag then Some (mesh_colors octree) else None).
Proof.
  intros Hagree HK.
  destruct (merged_steps_uniform this flag octree Hagree HK) as (geo & E & P & C & _).
  destruct (generateMesh_of_value this octree h geo E) as (mesh & h' & Eg & Hl).
  exists mesh, h', geo. repeat split; assumption.
Qed.

(** X4, witness: two red leaves after a leaf without data. *)
Lemma generateMesh_geometry_witness :
  exists mesh h' geo,
    generateMesh loader0 [leaf_null; leaf_red; leaf_red] heap0 = Returns mesh h' /\
    geometries h' !! geometry mesh = Some geo /\
    position geo = mesh_positions loader0 [leaf_null; leaf_red; leaf_red] /\
    attr_color geo = Some (mesh_colors [leaf_null; leaf_red; leaf_red]).
Proof.
  apply (generateMesh_geometry loader0 [leaf_null; leaf_red; leaf_red] heap0 true).
  - repeat constructor; intros H; try discriminate H;
      (eexists; split; reflexivity).
  - vm_compute. lia.
Defined.

(** X5.  Every mesh that [generateMesh] returns has a geometry of whole
    boxes (24 * k vertices and 36 * k index entries for some k >= 1) whose
    index entries all name one of its vertices and whose colour attribute,
    when present, has one entry per vertex. *)
Theorem generateMesh_well_formed this octree h mesh h' :
  generateMesh this octree h = Returns mesh h' ->
  exists geo,
    geometries h' !! geometry mesh = Some geo /\
    Forall (fun j => (j < length (position geo))%nat) (index geo) /\
    (exists k, (1 <= k)%nat /\ length (position geo) = (24 * k)%nat /\
               length (index geo) = (36 * k)%nat) /\
    (forall cols, attr_color geo = Some cols -> length cols = length (position geo)).
Proof.
  intros E.
  destruct (generateMesh_returns_value this octree h mesh h' E) as (geo & Es & Hl).
  exists geo. split; [exact Hl |].
  exact (merged_steps_well_formed this octree None geo I Es).
Qed.

(** X5, witness: the mesh of the red leaf. *)
Lemma generateMesh_well_formed_witness :
  exists mesh h' geo,
    generateMesh loader0 [leaf_red] heap0 = Returns mesh h' /\
    geometries h' !! geometry mesh = Some geo /\
    Forall (fun j => (j < length (position geo))%nat) (index geo).
Proof.
  pose proof (generateMesh_single_leaf loader0
                (mkPointData [mkVector3 5 0 0] [mkAttr (Some red)])
                (mkVector3 5 0 0) [] (mkAttr (Some red)) [] [white]
                eq_refl eq_refl) as E.
  destruct (generateMesh_well_formed loader0 [leaf_red] heap0 _ _ E)
    as (geo & Hl & Hidx & _).
  eexists _, _, geo. split; [exact E |]. split; [exact Hl | exact Hidx].
Defined.

(** X6.  When the leaves processed so far all have a colour (or all lack
    one) and the last leaf that passes the guard is the other way round,
    the merge yields [null] and [generateMesh] throws a [TypeError]. *)
Theorem generateMesh_color_mismatch this prefix leaf suffix h flag data0 :
  Forall (agrees flag) prefix ->
  (1 <= non_empty_leaves prefix)%nat ->
  has_points leaf = true ->
  first_record leaf = Some data0 ->
  colored data0 = negb flag ->
  Forall (fun l => has_points l = false) suffix ->
  generateMesh this (prefix ++ leaf :: suffix) h = Throws TypeError.
Proof.
  intros Hagree HK Hpts Hrec Hcol Hskip.
  destruct (merged_steps_uniform this flag prefix Hagree HK) as (gm & E & _ & _ & F).
  assert (Hleaf : exists d p0, leaf_record leaf = Some (d, p0, data0)).
  { unfold has_points, first_record, leaf_record in *.
    destruct (leaf_data leaf) as [d |]; [| discriminate].
    destruct (points d) as [| p0 pts]; [discriminate |].
    rewrite Hrec. exists d, p0. reflexivity. }
  destruct Hleaf as (d & p0 & Hleaf).
  assert (Es : merged_steps this None (prefix ++ leaf :: suffix) = Some None).
  { rewrite merged_steps_app, E. cbn [merged_steps].
    rewrite (merged_step_record this _ _ _ _ _ Hleaf).
    rewrite (merge_mismatch this gm d p0 data0)
      by (rewrite F, Hcol; destruct flag; discriminate).
    apply merged_steps_skip, Hskip. }
  destruct h as [gs ms]. unfold generateMesh, bind.
  pose proof (visit_leaves_value this (prefix ++ leaf :: suffix) None None gs ms I) as Hv.
  rewrite Es in Hv.
  destruct Hv as ([m |] & gs' & -> & Hn); cbn [names] in Hn; [contradiction |].
  reflexivity.
Qed.

(** X6, witness: a red leaf, then an uncoloured leaf, then a leaf without
    data. *)
Lemma generateMesh_color_mismatch_witness :
  generateMesh loader0 ([leaf_red] ++ leaf_plain :: [leaf_null]) heap0
  = Throws TypeError.
Proof.
  apply (generateMesh_color_mismatch loader0 [leaf_red] leaf_plain [leaf_null]
           heap0 true (mkAttr None)).
  - repeat constructor. intros _. eexists. split; reflexivity.
  - vm_compute. lia.
  - reflexivity.
  - reflexivity.
  - reflexivity.
  - repeat constructor.
Defined.

(** ** What [generateMesh] does to the heap *)

Section Growth.

Variables (this : VoxelLoader) (n : nat).

Lemma grows_refl h : grows h h.
Proof. split; [reflexivity |]. exists []. rewrite app_nil_r. reflexivity. Qed.

Lemma grows_trans h1 h2 h3 : grows h1 h2 -> grows h2 h3 -> grows h1 h3.
Proof.
  intros [M1 [a1 G1]] [M2 [a2 G2]]. split; [congruence |].
  exists (a1 ++ a2). rewrite G2, G1, app_assoc. reflexivity.
Qed.

Lemma visit_leaf_grows merged leaf h merged' h' :
  recent n h merged ->
  visit_leaf this merged leaf h = Returns merged' h' ->
  grows h h' /\ recent n h' merged'.
Proof.
  intros [Hn Hm] E. unfold visit_leaf in E.
  assert (Hskip : Returns merged h = Returns merged' h' ->
                  grows h h' /\ recent n h' merged').
  { intros E'. injection E' as <- <-. split; [apply grows_refl | split; assumption]. }
  destruct (leaf_data leaf) as [d |]; [| exact (Hskip E)].
  destruct (points d) as [| p0 rest]; [exact (Hskip E) |]. clear Hskip.
  destruct (data d !! 0%nat) as [data0 |] eqn:Hdata;
    [| rewrite voxel_no_record in E by exact Hdata; discriminate E].
  destruct h as [gs ms]. cbn [geometries] in *.
  destruct merged as [m |].
  - destruct (lookup_lt_is_Some_2 gs m (proj2 Hm)) as [gm Hgm].
    rewrite (voxel_merge this d p0 data0 gs ms Hdata m gm Hgm) in E.
    destruct (merge_values gm (voxel_world this d p0 (color data0))) as [mg |];
      injection E as <- <-.
    + split; [split; [reflexivity | eexists; reflexivity] |].
      unfold recent. cbn [geometries]. rewrite length_app. cbn [length]. lia.
    + split; [split; [reflexivity | eexists; reflexivity] |].
      unfold recent. cbn [geometries]. rewrite length_app. cbn [length]. lia.
  - rewrite (voxel_first this d p0 data0 gs ms Hdata) in E. injection E as <- <-.
    split; [split; [reflexivity | eexists; reflexivity] |].
    unfold recent. cbn [geometries]. rewrite length_app. cbn [length]. lia.
Qed.

Lemma visit_leaves_grows octree : forall merged h merged' h',
  recent n h merged ->
  visit_leaves this merged octree h = Returns merged' h' ->
  grows h h' /\ recent n h' merged'.
Proof.
  induction octree as [| leaf rest IH]; intros merged h merged' h' Hrec E.
  - injection E as <- <-. split; [apply grows_refl | exact Hrec].
  - cbn [visit_leaves] in E. unfold bind in E.
    destruct (visit_leaf this merged leaf h) as [m1 h1 | e |] eqn:E1;
      try discriminate E.
    destruct (visit_leaf_grows _ _ _ _ _ Hrec E1) as [G1 R1].
    destruct (IH _ _ _ _ R1 E) as [G2 R2].
    split; [exact (grows_trans _ _ _ G1 G2) | exact R2].
Qed.

End Growth.

(** What a returning [generateMesh] did to the heap. *)
Lemma generateMesh_grows this octree h mesh h' :
  generateMesh this octree h = Returns mesh h' ->
  grows h h' /\
  (length (geometries h) <= geometry mesh < length (geometries h'))%nat /\
  material mesh = this_material this.
Proof.
  intros E. unfold generateMesh, bind in E.
  destruct (visit_leaves this None octree h) as [[m |] h1 | e |] eqn:Ev;
    try discriminate E.
  assert (Hrec : recent (length (geometries h)) h None) by (split; [lia | exact I]).
  destruct (visit_leaves_grows this _ octree _ _ _ _ Hrec Ev) as [G [_ Hm]].
  unfold computeFaceNormals, computeVertexNormals, bind, read_geometry, ret in E.
  destruct (geometries h1 !! m) eqn:Hl; [| discriminate E].
  rewrite Hl in E. injection E as <- <-. cbn [geometry material].
  split; [exact G |]. split; [exact Hm | reflexivity].
Qed.

Lemma grows_lookup h h' p geo :
  grows h h' -> geometries h !! p = Some geo -> geometries h' !! p = Some geo.
Proof.
  intros [_ [added ->]] Hp. apply lookup_app_l_Some, Hp.
Qed.

(** X7.  A call of [generateMesh] that returns has changed no material and
    no geometry that existed before the call; the geometry of the mesh is
    an object that did not exist before. *)
Theorem generateMesh_frame this octree h mesh h' :
  generateMesh this octree h = Returns mesh h' ->
  materials h' = materials h /\
  (forall p geo, geometries h !! p = Some geo -> geometries h' !! p = Some geo) /\
  geometries h !! geometry mesh = None /\
  is_Some (geometries h' !! geometry mesh).
Proof.
  intros E. destruct (generateMesh_grows this octree h mesh h' E) as (G & Hm & _).
  split; [apply G |]. split; [intros p geo; apply grows_lookup, G |].
  split; [apply lookup_ge_None_2; lia | apply lookup_lt_is_Some_2; lia].
Qed.

(** X7, witness: the red leaf meshed in a heap that holds a 2 x 2 x 2 box. *)
Lemma generateMesh_frame_witness :
  exists mesh h',
    generateMesh loader0 [leaf_red] (mkHeap [BoxGeometry_value 2 2 2] [white])
    = Returns mesh h' /\
    materials h' = [white] /\
    geometries h' !! 0%nat = Some (BoxGeometry_value 2 2 2) /\
    geometry mesh = 1%nat.
Proof.
  pose proof (generateMesh_single_leaf loader0
                (mkPointData [mkVector3 5 0 0] [mkAttr (Some red)])
                (mkVector3 5 0 0) [] (mkAttr (Some red))
                [BoxGeometry_value 2 2 2] [white] eq_refl eq_refl) as E.
  destruct (generateMesh_frame loader0 [leaf_red]
              (mkHeap [BoxGeometry_value 2 2 2] [white]) _ _ E) as (M & F & _ & _).
  eexists _, _. split; [exact E |]. split; [exact M |].
  split; [apply F; reflexivity | reflexivity].
Defined.

(** X8.  Two calls of [generateMesh] on the same loader give meshes with
    two different geometry objects and the same material reference, and the
    second call leaves the geometry of the first mesh as it was. *)
Theorem generateMesh_twice this octree1 octree2 h mesh1 h1 mesh2 h2 :
  generateMesh this octree1 h = Returns mesh1 h1 ->
  generateMesh this octree2 h1 = Returns mesh2 h2 ->
  geometry mesh2 <> geometry mesh1 /\
  geometries h2 !! geometry mesh1 = geometries h1 !! geometry mesh1 /\
  material mesh2 = material mesh1.
Proof.
  intros E1 E2.
  destruct (generateMesh_grows _ _ _ _ _ E1) as (G1 & Hm1 & Mat1).
  destruct (generateMesh_grows _ _ _ _ _ E2) as (G2 & Hm2 & Mat2).
  split; [lia |]. split; [| congruence].
  destruct (lookup_lt_is_Some_2 (geometries h1) (geometry mesh1) (proj2 Hm1))
    as [geo Hgeo].
  transitivity (Some geo); [exact (grows_lookup _ _ _ _ G2 Hgeo) |].
  symmetry. exact Hgeo.
Qed.

(** X8, witness: the red leaf, then the uncoloured leaf. *)
Lemma generateMesh_twice_witness :
  exists mesh1 h1 mesh2 h2,
    generateMesh loader0 [leaf_red] heap0 = Returns mesh1 h1 /\
    generateMesh loader0 [leaf_plain] h1 = Returns mesh2 h2 /\
    geometry mesh2 <> geometry mesh1 /\
    geometries h2 !! geometry mesh1 = geometries h1 !! geometry mesh1 /\
    material mesh2 = material mesh1.
Proof.
  pose proof (generateMesh_single_leaf loader0
                (mkPointData [mkVector3 5 0 0] [mkAttr (Some red)])
                (mkVector3 5 0 0) [] (mkAttr (Some red)) [] [white]
                eq_refl eq_refl) as E1.
  pose proof (generateMesh_single_leaf loader0
                (mkPointData [mkVector3 0 0 0; mkVector3 2 0 0] [mkAttr None])
                (mkVector3 0 0 0) [mkVector3 2 0 0] (mkAttr None)
                ([] ++ [voxel_local loader0
                          (mkPointData [mkVector3 5 0 0] [mkAttr (Some red)])
                          (mkVector3 5 0 0) (color (mkAttr (Some red)))])
                [white] eq_refl eq_refl) as E2.
  eexists _, _, _, _. split; [exact E1 |]. split; [exact E2 |].
  exact (generateMesh_twice loader0 [leaf_red] [leaf_plain] heap0 _ _ _ _ E1 E2).
Defined.

(** ** More on the box builder *)

Section Numbers.

Lemma is_minimum_Permutation f l l' m :
  Permutation l l' -> is_minimum f l m -> is_minimum f l' m.
Proof.
  intros HP [(p & Hp & E) Hlo]. split.
  - exists p. split; [eapply Permutation_in; eassumption | exact E].
  - intros q Hq. apply Hlo. eapply Permutation_in; [symmetry |]; eassumption.
Qed.

Lemma is_maximum_Permutation f l l' m :
  Permutation l l' -> is_maximum f l m -> is_maximum f l' m.
Proof.
  intros HP [(p & Hp & E) Hhi]. split.
  - exists p. split; [eapply Permutation_in; eassumption | exact E].
  - intros q Hq. apply Hhi. eapply Permutation_in; [symmetry |]; eassumption.
Qed.

End Numbers.

(** X11.  A larger voxel size never gives a smaller box. *)
Theorem box_dimensions_monotone (v1 v2 : Q) (s : Scan) :
  v1 <= v2 ->
  box_width (Some v1) s <= box_width (Some v2) s /\
  box_height (Some v1) s <= box_height (Some v2) s /\
  box_depth (Some v1) s <= box_depth (Some v2) s.
Proof.
  intros Hv. unfold box_width, box_height, box_depth. cbn [ToNumber].
  split; [| split]; apply (round2_le _ _); lra.
Qed.

(** X11, witness: voxel sizes 1 and 2 on the points (0,0,0), (2,0,0). *)
Lemma box_dimensions_monotone_witness :
  1 <= 2 /\
  box_width (Some 1)
    (scan_points (mkVector3 0 0 0) [mkVector3 0 0 0; mkVector3 2 0 0])
  <= box_width (Some 2)
       (scan_points (mkVector3 0 0 0) [mkVector3 0 0 0; mkVector3 2 0 0]).
Proof.
  assert (H : 1 <= 2) by discriminate.
  split; [exact H |].
  exact (proj1 (box_dimensions_monotone 1 2
                  (scan_points (mkVector3 0 0 0) [mkVector3 0 0 0; mkVector3 2 0 0])
                  H)).
Defined.

(** X12.  The order of the points within a leaf does not matter for the
    size of its box: two orders of the same points give the same width,
    height and depth. *)
Theorem box_order_independent (voxelSize : option Q) p0 rest q0 rest' :
  Permutation (p0 :: rest) (q0 :: rest') ->
  let s := scan_points p0 (p0 :: rest) in
  let s' := scan_points q0 (q0 :: rest') in
  box_width voxelSize s == box_width voxelSize s' /\
  box_height voxelSize s == box_height voxelSize s' /\
  box_depth voxelSize s == box_depth voxelSize s'.
Proof.
  intros HP s s'.
  destruct (scan_extrema p0 rest) as ((Xl & Xh) & (Yl & Yh) & (Zl & Zh)).
  fold s in Xl, Xh, Yl, Yh, Zl, Zh.
  destruct (box_dimensions q0 rest' voxelSize
              (x (s_min s)) (x (s_max s)) (y (s_min s)) (y (s_max s))
              (z (s_min s)) (z (s_max s))) as (W' & H' & D');
    try (eapply is_minimum_Permutation; eassumption);
    try (eapply is_maximum_Permutation; eassumption).
  fold s' in W', H', D'.
  split; [rewrite W'; reflexivity |].
  split; [rewrite H'; reflexivity | rewrite D'; reflexivity].
Qed.

(** X12, witness: the points (0,0,0), (2,0,0) in both orders. *)
Lemma box_order_independent_witness :
  Permutation [mkVector3 0 0 0; mkVector3 2 0 0] [mkVector3 2 0 0; mkVector3 0 0 0] /\
  box_width (Some 1)
    (scan_points (mkVector3 0 0 0) [mkVector3 0 0 0; mkVector3 2 0 0])
  == box_width (Some 1)
       (scan_points (mkVector3 2 0 0) [mkVector3 2 0 0; mkVector3 0 0 0]).
Proof.
  assert (HP : Permutation [mkVector3 0 0 0; mkVector3 2 0 0]
                           [mkVector3 2 0 0; mkVector3 0 0 0])
    by apply perm_swap.
  split; [exact HP |].
  exact (proj1 (box_order_independent (Some 1) (mkVector3 0 0 0) [mkVector3 2 0 0]
                  (mkVector3 2 0 0) [mkVector3 0 0 0] HP)).
Defined.

(** ** The constructor and the default material *)

Section Materials.

Variables (gs : list BufferGeometry) (ms : list Material).

Lemma lookup_last_material (m : Material) : (ms ++ [m]) !! length ms = Some m.
Proof. apply list_lookup_middle. reflexivity. Qed.

(** [setVoxelMaterial()] without argument. *)
Lemma setVoxelMaterial_default (this : VoxelLoader) :
  setVoxelMaterial None this (mkHeap gs ms)
  = Returns (mkLoader (Some (length ms)) (this_voxelSize this))
            (mkHeap gs (ms ++ [default_material])).
Proof.
  unfold setVoxelMaterial.
  unfold bind at 1, alloc_material. cbn [geometries materials].
  unfold bind at 1, read_material. cbn [geometries materials].
  rewrite lookup_last_material.
  unfold bind at 1, write_material. cbn [geometries materials m_color].
  rewrite lookup_last_material.
  rewrite insert_app_r_alt by lia. rewrite Nat.sub_diag. reflexivity.
Qed.

Lemma new_VoxelLoader_returns :
  new_VoxelLoader (mkHeap gs ms)
  = Returns (mkLoader (Some (length ms)) (Some 1))
            (mkHeap gs (ms ++ [default_material])).
Proof.
  unfold new_VoxelLoader, bind. rewrite setVoxelMaterial_default. reflexivity.
Qed.

End Materials.

(** X15.  [new VoxelLoader(manager)] returns a loader with voxel size 1 and
    with a material object that did not exist before, white (0xffffff) and
    in vertex-colour mode; it changes no material and no geometry that
    existed before. *)
Theorem new_VoxelLoader_defaults (h : Heap) :
  exists this h' m,
    new_VoxelLoader h = Returns this h' /\
    this_voxelSize this = Some 1 /\
    this_material this = Some m /\
    materials h !! m = None /\
    materials h' !! m = Some (mkMaterial 0xffffff VertexColors) /\
    (forall q mat, materials h !! q = Some mat -> materials h' !! q = Some mat) /\
    geometries h' = geometries h.
Proof.
  destruct h as [gs ms]. eexists _, _, _.
  split; [apply new_VoxelLoader_returns |]. cbn [this_voxelSize this_material
                                                  geometries materials].
  split; [reflexivity |]. split; [reflexivity |].
  split; [apply lookup_ge_None_2; lia |].
  split; [apply lookup_last_material |].
  split; [| reflexivity].
  intros q mat Hq. apply lookup_app_l_Some, Hq.
Qed.

(** X16.  Two loaders built one after the other have two different default
    material objects, and building the second leaves the material of the
    first as it was. *)
Theorem default_materials_not_shared (h : Heap) :
  exists this1 h1 this2 h2 m1 m2,
    new_VoxelLoader h = Returns this1 h1 /\
    new_VoxelLoader h1 = Returns this2 h2 /\
    this_material this1 = Some m1 /\
    this_material this2 = Some m2 /\
    m1 <> m2 /\
    materials h1 !! m1 = Some default_material /\
    materials h2 !! m1 = Some default_material /\
    materials h2 !! m2 = Some default_material.
Proof.
  destruct h as [gs ms].
  exists (mkLoader (Some (length ms)) (Some 1)),
         (mkHeap gs (ms ++ [default_material])),
         (mkLoader (Some (length (ms ++ [default_material]))) (Some 1)),
         (mkHeap gs ((ms ++ [default_material]) ++ [default_material])),
         (length ms), (length (ms ++ [default_material])).
  split; [apply new_VoxelLoader_returns |].
  split; [apply new_VoxelLoader_returns |].
  split; [reflexivity |]. split; [reflexivity |].
  split; [rewrite length_app; cbn; lia |].
  cbn [materials].
  split; [apply lookup_last_material |].
  split; [apply lookup_app_l_Some, lookup_last_material |].
  apply lookup_last_material.
Qed.

(** ** The file extension that selects the loader *)

Section Extension.

Lemma split_nonempty sep s : split sep s <> [].
Proof.
  destruct s as [| c s']; cbn [split]; [discriminate |].
  destruct (Ascii.eqb c sep); [discriminate |].
  destruct (split sep s'); discriminate.
Qed.

Lemma split_dotless s : dotless s -> split "." s = [s].
Proof.
  induction s as [| c s' IH]; intros Hs; [reflexivity |].
  destruct Hs as [Hc Hs']. cbn [split].
  destruct (Ascii.eqb_spec c "."); [contradiction |].
  rewrite (IH Hs'). reflexivity.
Qed.

Lemma last_cons_nonempty {A} (a : A) (l : list A) : l <> [] -> last (a :: l) = last l.
Proof. destruct l; [contradiction | reflexivity]. Qed.

Lemma last_split_append base ext :
  exists piece pieces,
    split "." (base ++ String "." ext) = piece :: pieces /\
    pieces <> [] /\ last pieces = last (split "." ext).
Proof.
  induction base as [| c base IH].
  - exists EmptyString, (split "." ext). cbn. repeat split. apply split_nonempty.
  - destruct IH as (piece & pieces & E & Hne & Hlast).
    cbn [append split]. rewrite E.
    destruct (Ascii.eqb c ".").
    + exists EmptyString, (piece :: pieces). split; [reflexivity |].
      split; [discriminate |]. rewrite last_cons_nonempty by exact Hne. exact Hlast.
    + exists (String c piece), pieces. repeat split; assumption.
Qed.

Lemma toLowerCase_char_dot c : toLowerCase_char c = "."%char <-> c = "."%char.
Proof.
  destruct c as [[] [] [] [] [] [] [] []]; vm_compute; split; congruence.
Qed.

Lemma toLowerCase_char_idem c :
  toLowerCase_char (toLowerCase_char c) = toLowerCase_char c.
Proof. destruct c as [[] [] [] [] [] [] [] []]; reflexivity. Qed.

Lemma toLowerCase_idem s : toLowerCase (toLowerCase s) = toLowerCase s.
Proof.
  induction s as [| c s IH]; [reflexivity |].
  cbn [toLowerCase]. rewrite toLowerCase_char_idem, IH. reflexivity.
Qed.

Lemma toLowerCase_dotless s : dotless s -> dotless (toLowerCase s).
Proof.
  induction s as [| c s IH]; [exact id |].
  intros [Hc Hs]. split; [| exact (IH Hs)].
  intros E. apply Hc. apply (proj1 (toLowerCase_char_dot c)), E.
Qed.

Lemma split_pieces_dotless s : Forall dotless (split "." s).
Proof.
  induction s as [| c s IH]; cbn [split]; [repeat constructor |].
  destruct (Ascii.eqb_spec c ".") as [-> | Hc].
  - constructor; [exact I | exact IH].
  - destruct (split "." s) as [| piece pieces]; [repeat constructor; assumption |].
    inversion IH as [| ? ? Hp Hps]; subst.
    constructor; [split; assumption | exact Hps].
Qed.

Lemma split_toLowerCase s :
  split "." (toLowerCase s) = map toLowerCase (split "." s).
Proof.
  induction s as [| c s IH]; [reflexivity |].
  cbn [toLowerCase split]. rewrite IH.
  destruct (Ascii.eqb_spec c ".") as [-> | Hc].
  - reflexivity.
  - destruct (Ascii.eqb_spec (toLowerCase_char c) ".") as [E | _].
    + apply (proj1 (toLowerCase_char_dot c)) in E. contradiction.
    + destruct (split "." s); reflexivity.
Qed.

Lemma last_map {A B} (f : A -> B) (l : list A) :
  last (map f l) = option_map f (last l).
Proof.
  induction l as [| a [| a' l] IH]; [reflexivity | reflexivity |].
  exact IH.
Qed.

End Extension.

(** X17.  For a URL that ends in a dot followed by a dot-free ASCII text
    [ext], the extension that selects the loader is [ext] in lower case;
    for a URL that is itself such a text, with no dot at all, it is the
    whole URL in lower case. *)
Theorem extension_of_suffix (base ext : string) :
  dotless ext -> ascii_only ext ->
  extension (base ++ String "." ext) = Some (toLowerCase ext) /\
  extension ext = Some (toLowerCase ext).
Proof.
  intros Hext _. unfold extension.
  destruct (last_split_append base ext) as (piece & pieces & -> & Hne & Hlast).
  rewrite last_cons_nonempty by exact Hne. rewrite Hlast.
  rewrite (split_dotless ext Hext). split; reflexivity.
Qed.

(** X17, witness: upper-case extension after a name with a dot. *)
Lemma extension_of_suffix_witness :
  extension "models/Castle.final.VOX" = Some "vox"%string /\
  extension "VOX" = Some "vox"%string.
Proof.
  apply (extension_of_suffix "models/Castle.final" "VOX").
  - repeat split; discriminate.
  - repeat split; vm_compute; lia.
Defined.

(** X18.  For every ASCII URL the extension is computed without failure, it
    contains no dot and no upper-case letter, and it does not depend on the
    case of the URL. *)
Theorem extension_lower_case (url : string) :
  ascii_only url ->
  exists e,
    extension url = Some e /\
    dotless e /\
    toLowerCase e = e /\
    extension (toLowerCase url) = Some e.
Proof.
  intros _. unfold extension. rewrite split_toLowerCase, last_map.
  pose proof (split_nonempty "." url) as Hne.
  pose proof (split_pieces_dotless url) as Hall.
  destruct (last (split "." url)) as [piece |] eqn:Hlast.
  - exists (toLowerCase piece). split; [reflexivity |].
    split; [| split].
    + apply toLowerCase_dotless.
      rewrite List.Forall_forall in Hall. apply Hall.
      apply list_elem_of_In. apply last_Some_elem_of. exact Hlast.
    + apply toLowerCase_idem.
    + cbn [option_map]. rewrite toLowerCase_idem. reflexivity.
  - apply last_None in Hlast. contradiction.
Qed.

(** X18, witness: a mixed-case URL. *)
Lemma extension_lower_case_witness :
  exists e,
    extension "Scene.Vox" = Some e /\
    dotless e /\
    toLowerCase e = e /\
    extension (toLowerCase "Scene.Vox") = Some e.
Proof.
  apply (extension_lower_case "Scene.Vox").
  repeat split; vm_compute; lia.
Defined.
